(** * Dashboard persistence layer and assistant facade: a shallow embedding

    The development follows the four source files of the repository:

    - [src/ai_helper.py]    -> [Module AiHelper]
    - [src/DB/schema.py]    -> [Module Schema]
    - [src/DB/crud.py]      -> [Module Crud]
    - [src/DB/load_data.py] -> [Module LoadData]

    Python strings are Rocq [string]s whose characters are the code points
    0..255; SQLite and pandas values share one type [value]. Statements that
    can raise return a [result]. Console output ([print]) is informational
    only and is not part of the embedding. *)

From Stdlib Require Import List String Ascii Bool ZArith Lia Arith.
From Stdlib Require Import DecimalString Decimal DecimalZ DecimalPos.
Import ListNotations.
Set Warnings "-register-all".
Local Open Scope list_scope.
Local Open Scope string_scope.

(** A Python [dict] with string keys, or the named cells of a row: an
    association list read from the front. *)
Fixpoint assoc {A : Type} (k : string) (m : list (string * A)) : option A :=
  match m with
  | [] => None
  | (k', v) :: r => if String.eqb k k' then Some v else assoc k r
  end.

(** ** Python string primitives *)

Module PyStr.

(** The line feed, written [\n] in the sources. *)
Definition nl : string := String (ascii_of_nat 10) EmptyString.

(** [str.lower()] on code points 0..255: A-Z and the Latin-1 capitals
    0xC0..0xDE (but not the multiplication sign 0xD7) move up by 32. *)
Definition lower_char (c : ascii) : ascii :=
  let n := nat_of_ascii c in
  if ((65 <=? n) && (n <=? 90))%nat then ascii_of_nat (n + 32)
  else if ((192 <=? n) && (n <=? 222) && negb (n =? 215))%nat
       then ascii_of_nat (n + 32)
  else c.

Fixpoint lower (s : string) : string :=
  match s with
  | EmptyString => EmptyString
  | String c r => String (lower_char c) (lower r)
  end.

(** [s.startswith(p)] *)
Definition startswith (s p : string) : bool := String.prefix p s.

(** [sub in s] *)
Fixpoint contains (sub s : string) : bool :=
  String.prefix sub s ||
  match s with
  | EmptyString => false
  | String _ r => contains sub r
  end.

(** [str.isspace] on one code point below 256. *)
Definition is_space (c : ascii) : bool :=
  let n := nat_of_ascii c in
  ((9 <=? n) && (n <=? 13) || (28 <=? n) && (n <=? 32)
   || (n =? 133) || (n =? 160))%nat.

Fixpoint lstrip (s : string) : string :=
  match s with
  | EmptyString => EmptyString
  | String c r => if is_space c then lstrip r else s
  end.

Fixpoint rstrip (s : string) : string :=
  match s with
  | EmptyString => EmptyString
  | String c r =>
      match rstrip r with
      | EmptyString => if is_space c then EmptyString else String c EmptyString
      | r' => String c r'
      end
  end.

(** [s.strip()] *)
Definition strip (s : string) : string := rstrip (lstrip s).

(** [sep.join(parts)] *)
Fixpoint join (sep : string) (parts : list string) : string :=
  match parts with
  | [] => EmptyString
  | [p] => p
  | p :: rest => p ++ sep ++ join sep rest
  end.

(** Truthiness of an [Optional[str]]: [None] and the empty string are falsy. *)
Definition truthy (o : option string) : bool :=
  match o with
  | Some (String _ _) => true
  | _ => false
  end.

(** [str(n)] for a Python [int]. *)
Definition of_Z (z : Z) : string := NilZero.string_of_int (Z.to_int z).

End PyStr.

(** ** Results of statements that may raise *)

Inductive constraint : Type :=
| NotNull (col : string)
| Unique (col : string).

Inductive exn : Type :=
| IntegrityError (c : constraint)   (* sqlite3.IntegrityError *)
| OperationalError (msg : string)   (* sqlite3.OperationalError *)
| KeyError (key : string).          (* pandas: column not in the frame *)

Inductive result (A : Type) : Type :=
| Ok (a : A)
| Raise (e : exn).
Arguments Ok {A} a.
Arguments Raise {A} e.

Definition bind {A B : Type} (r : result A) (k : A -> result B) : result B :=
  match r with
  | Ok a => k a
  | Raise e => Raise e
  end.

Notation "'do' x <- r ;; k" := (bind r (fun x => k))
  (at level 10, x pattern, r at level 100, k at level 200).

(** ** src/ai_helper.py *)

Module AiHelper.
Import PyStr.

Definition preamble : string :=
  "Offline assistant mode (no usable AI API call succeeded)." ++ nl ++
  "Below is a rule-based analysis based on your incident data.".

Definition context_block (context_text : string) : string :=
  nl ++ "Incident summary:" ++ nl ++ context_text.

Definition prioritisation_block : string :=
  nl ++ "Prioritisation advice:" ++ nl ++
  "- Resolve High/Critical incidents that are still Open first." ++ nl ++
  "- Next, clear Medium incidents that have been open for a long time." ++ nl ++
  "- Low severity incidents can be grouped and handled in batches.".

Definition phishing_block : string :=
  nl ++ "Phishing guidance:" ++ nl ++
  "- Check if a large share of incidents are phishing emails." ++ nl ++
  "- If yes, recommend short staff training and stronger email filtering rules." ++ nl ++
  "- Monitor how phishing incidents change after these actions.".

Definition backlog_block : string :=
  nl ++ "Backlog / bottleneck analysis:" ++ nl ++
  "- A high count of Open incidents suggests insufficient capacity." ++ nl ++
  "- Many incidents stuck In Progress can indicate process bottlenecks." ++ nl ++
  "- Compare incident counts per assignee to detect imbalances.".

Definition generic_block : string :=
  nl ++ "General guidance:" ++ nl ++
  "- Use the filters and charts above to inspect which incident types, " ++
  "severities, and assignees dominate, then adjust playbooks accordingly.".

Definition disclaimer : string :=
  nl ++ "In a full deployment, this panel sends the same question and context to " ++
  "the OpenRouter model via the OpenRouter API.".

(** The keyword tests of [_offline_response], on the lower-cased question. *)
Definition wants_priority (msg : string) : bool :=
  contains "priorit" msg || contains "first" msg.
Definition wants_phishing (msg : string) : bool := contains "phishing" msg.
Definition wants_backlog (msg : string) : bool :=
  contains "backlog" msg || contains "bottleneck" msg.

(** The list [parts] of [_offline_response] just before the final join;
    every [parts.append] of the source is one step here. *)
Definition offline_parts (user_message : string) (context_text : option string)
  : list string :=
  let parts := [preamble] in
  let parts :=
    match context_text with
    | Some c => if truthy context_text then (parts ++ [context_block c])%list else parts
    | None => parts
    end in
  let msg := lower user_message in
  let parts := if wants_priority msg then (parts ++ [prioritisation_block])%list else parts in
  let parts := if wants_phishing msg then (parts ++ [phishing_block])%list else parts in
  let parts := if wants_backlog msg then (parts ++ [backlog_block])%list else parts in
  let parts := if (List.length parts =? 1)%nat then (parts ++ [generic_block])%list else parts in
  (parts ++ [disclaimer])%list.

Definition _offline_response (user_message : string) (context_text : option string)
  : string :=
  join nl (offline_parts user_message context_text).

(** *** The remote call *)

(** A parsed JSON document as Python sees it after [resp.json()]. A float is
    carried by its [repr]. *)
Inductive json : Type :=
| JNull
| JBool (b : bool)
| JInt (n : Z)
| JReal (repr : string)
| JStr (s : string)
| JArr (items : list json)
| JObj (fields : list (string * json)).

(** What [resp.json()] does: it raises (the body is not JSON) or returns the
    document; [shown] is Python's [str(data)], used in one message only. *)
Inductive json_outcome : Type :=
| JsonRaised (e : string)
| JsonData (data : json) (shown : string).

(** What [requests.post] does: it raises (no network, timeout, ...; [e] is
    [str(e)]) or returns a response. *)
Inductive http_outcome : Type :=
| PostRaised (e : string)
| Response (status_code : Z) (text : string) (body : json_outcome).

Record request : Type := mkRequest {
  url : string;
  authorization : string;
  model : string;
  system_content : string;
  user_content : string;
  temperature : string;
  max_tokens : Z;
  timeout : Z
}.

Definition system_prompt_base : string :=
  "You are a helpful cybersecurity analyst assistant for a university dashboard. " ++
  "Explain trends, severity priorities, and risks clearly for a first-year " ++
  "computer science student. Be concise and practical." ++ nl.

Definition build_request (api_key user_message : string)
  (context_text : option string) : request :=
  let system_prompt :=
    match context_text with
    | Some c =>
        if truthy context_text
        then system_prompt_base ++ nl ++
             "Here is a summary of the current incidents:" ++ nl ++ c ++ nl
        else system_prompt_base
    | None => system_prompt_base
    end in
  {| url := "https://openrouter.ai/api/v1/chat/completions";
     authorization := "Bearer " ++ api_key;
     model := "openai/gpt-oss-20b:free";
     system_content := system_prompt;
     user_content := user_message;
     temperature := "0.2";
     max_tokens := 400;
     timeout := 30 |}.

(** Python truthiness of a JSON value. *)
Definition json_truthy (j : json) : bool :=
  match j with
  | JNull => false
  | JBool b => b
  | JInt n => negb (n =? 0)%Z
  | JReal r => negb (String.eqb r "0.0" || String.eqb r "-0.0")
  | JStr s => negb (String.eqb s EmptyString)
  | JArr l => match l with [] => false | _ => true end
  | JObj m => match m with [] => false | _ => true end
  end.

Definition type_name (j : json) : string :=
  match j with
  | JNull => "NoneType"
  | JBool _ => "bool"
  | JInt _ => "int"
  | JReal _ => "float"
  | JStr _ => "str"
  | JArr _ => "list"
  | JObj _ => "dict"
  end.

(** Inside the [try] block an exception is a message, [str(e)]. *)
Definition no_attribute (j : json) (attr : string) : string :=
  "'" ++ type_name j ++ "' object has no attribute '" ++ attr ++ "'".

(** [obj.get(key, default)]: only a dict has [get]. *)
Definition py_get (obj : json) (key : string) (default : json) : string + json :=
  match obj with
  | JObj m => inr (match assoc key m with Some v => v | None => default end)
  | _ => inl (no_attribute obj "get")
  end.

(** [choices[0]] for a truthy [choices]. *)
Definition first_item (choices : json) : string + json :=
  match choices with
  | JArr (x :: _) => inr x
  | JArr [] => inl "list index out of range"
  | JStr (String c _) => inr (JStr (String c EmptyString))
  | JStr EmptyString => inl "string index out of range"
  | JObj _ => inl "0"
  | _ => inl ("'" ++ type_name choices ++ "' object is not subscriptable")
  end.

Definition error_prefix : string := "Error calling OpenRouter API".

(** The body of the [try] block once the status is 200 and the JSON parsed. *)
Definition read_choices (data : json) (shown : string) : string + string :=
  match py_get data "choices" JNull with
  | inl e => inl e
  | inr choices =>
      if negb (json_truthy choices)
      then inr ("AI API returned no choices. Raw: " ++ shown)
      else
        match first_item choices with
        | inl e => inl e
        | inr c0 =>
            match py_get c0 "message" (JObj []) with
            | inl e => inl e
            | inr message =>
                match py_get message "content" (JStr EmptyString) with
                | inl e => inl e
                | inr content =>
                    if json_truthy content
                    then match content with
                         | JStr s => inr (strip s)
                         | _ => inl (no_attribute content "strip")
                         end
                    else inr "AI API returned an empty message."
                end
            end
        end
  end.

(** [_openrouter_response]: [api_key] is [os.getenv("OPENROUTER_API_KEY")] and
    [post] is the one call of [requests.post]. *)
Definition _openrouter_response (api_key : option string)
  (post : request -> http_outcome)
  (user_message : string) (context_text : option string) : option string :=
  match api_key with
  | Some key =>
      if negb (truthy api_key) then None
      else
        match post (build_request key user_message context_text) with
        | PostRaised e => Some (error_prefix ++ ": " ++ e)
        | Response status_code text body =>
            if negb (status_code =? 200)%Z
            then Some (error_prefix ++ ": HTTP " ++ of_Z status_code ++ " | " ++ text)
            else
              match body with
              | JsonRaised e => Some (error_prefix ++ ": " ++ e)
              | JsonData data shown =>
                  match read_choices data shown with
                  | inl e => Some (error_prefix ++ ": " ++ e)
                  | inr answer => Some answer
                  end
              end
        end
  | None => None
  end.

Definition ask_cyber_assistant (api_key : option string)
  (post : request -> http_outcome)
  (user_message : string) (context_text : option string) : string :=
  match _openrouter_response api_key post user_message context_text with
  | None => _offline_response user_message context_text
  | Some online_answer =>
      if startswith online_answer error_prefix
      then online_answer ++ nl ++ nl ++ _offline_response user_message context_text
      else online_answer
  end.

(** [health_check]: [env_path] is [ENV_PATH], the place the key was looked
    for. *)
Definition health_check (env_path : string) (api_key : option string)
  (post : request -> http_outcome) : string :=
  if negb (truthy api_key)
  then "OPENROUTER_API_KEY is missing. Looked for .env at: " ++ env_path
  else
    match _openrouter_response api_key post "Say 'OK' only." (Some "Context: test") with
    | Some test => test
    | None => "Key missing (unexpected)."
    end.

End AiHelper.

(** ** Values and the SQLite tables *)

(** A cell of a pandas frame, a bound parameter of a statement, or a stored
    SQLite value. [VNull] is [None], [NaN] and SQL [NULL]; a float is carried
    by its Python [repr] (so [7.0] is [VFloat "7.0"]). *)
Inductive value : Type :=
| VNull
| VInt (n : Z)
| VFloat (repr : string)
| VText (s : string).

Definition value_eqb (a b : value) : bool :=
  match a, b with
  | VNull, VNull => true
  | VInt x, VInt y => (x =? y)%Z
  | VFloat x, VFloat y => String.eqb x y
  | VText x, VText y => String.eqb x y
  | _, _ => false
  end.

Definition is_null (v : value) : bool :=
  match v with VNull => true | _ => false end.

(** [str(v)], also what an f-string prints for [v]. *)
Definition py_str (v : value) : string :=
  match v with
  | VNull => "None"
  | VInt n => PyStr.of_Z n
  | VFloat r => r
  | VText s => s
  end.

Module Sqlite.

Inductive affinity : Type := TEXT | INTEGER | REAL.

Record column : Type := mkColumn {
  cname : string;
  ctype : affinity;
  not_null : bool;
  unique : bool
}.

(** Type affinity on storing: a TEXT column turns a number into its text.
    A float is rendered as its literal, which is what SQLite prints for the
    floats of up to 15 significant digits written without an exponent. Numeric
    coercion into INTEGER and REAL columns (size_mb, row_count) is left out:
    such a cell is kept as it was given. *)
Definition apply_affinity (a : affinity) (v : value) : value :=
  match a, v with
  | TEXT, VInt n => VText (PyStr.of_Z n)
  | TEXT, VFloat r => VText r
  | _, _ => v
  end.

(** A stored row: the surrogate [id INTEGER PRIMARY KEY AUTOINCREMENT] is the
    [rowid]; [cells] holds the business columns by name. *)
Record row : Type := mkRow {
  rowid : Z;
  cells : list (string * value)
}.

(** A table: its business columns, its rows in storage order and the
    AUTOINCREMENT counter. No statement of the repository names the [id]
    column, so an INSERT naming it is outside the embedding and is refused
    like any unknown column. *)
Record table : Type := mkTable {
  columns : list column;
  rows : list row;
  seq : Z
}.

Definition database : Type := list (string * table).

Definition cell_of (col : string) (cs : list (string * value)) : value :=
  match assoc col cs with
  | Some v => v
  | None => VNull
  end.

Definition column_names (t : table) : list string := map cname (columns t).

Definition has_column (t : table) (col : string) : bool :=
  existsb (String.eqb col) (column_names t).

Definition find_column (t : table) (col : string) : option column :=
  find (fun c => String.eqb col (cname c)) (columns t).

(** The cells of a new row: a named column takes its parameter under the
    column's affinity, an unnamed one is NULL. *)
Definition build_cells (cols : list column) (names : list string)
  (params : list value) : list (string * value) :=
  map (fun c =>
         (cname c,
          match assoc (cname c) (combine names params) with
          | Some v => apply_affinity (ctype c) v
          | None => VNull
          end)) cols.

Definition violates_not_null (cs : list (string * value)) (c : column) : bool :=
  not_null c && is_null (cell_of (cname c) cs).

Definition violates_unique (existing : list row) (cs : list (string * value))
  (c : column) : bool :=
  unique c && negb (is_null (cell_of (cname c) cs)) &&
  existsb (fun r => value_eqb (cell_of (cname c) (cells r)) (cell_of (cname c) cs))
          existing.

(** [INSERT INTO t (names) VALUES (params)] *)
Definition insert_row (t : table) (names : list string) (params : list value)
  : result table :=
  match find (fun n => negb (has_column t n)) names with
  | Some n => Raise (OperationalError ("table has no column named " ++ n))
  | None =>
      let cs := build_cells (columns t) names params in
      match find (violates_not_null cs) (columns t) with
      | Some c => Raise (IntegrityError (NotNull (cname c)))
      | None =>
          match find (violates_unique (rows t) cs) (columns t) with
          | Some c => Raise (IntegrityError (Unique (cname c)))
          | None =>
              Ok {| columns := columns t;
                    rows := rows t ++ [ {| rowid := seq t + 1; cells := cs |} ];
                    seq := seq t + 1 |}
          end
      end
  end.

(** [executemany] of one INSERT inside one transaction: the first failure
    raises and the caller keeps the table it had. *)
Fixpoint insert_many (t : table) (names : list string) (batch : list (list value))
  : result table :=
  match batch with
  | [] => Ok t
  | params :: rest =>
      do t' <- insert_row t names params ;;
      insert_many t' names rest
  end.

(** [SELECT col FROM t] *)
Definition select_column (t : table) (col : string) : result (list value) :=
  if has_column t col
  then Ok (map (fun r => cell_of col (cells r)) (rows t))
  else Raise (OperationalError ("no such column: " ++ col)).

(** [WHERE col = ?]: the parameter takes the column's affinity; NULL equals
    nothing. *)
Definition matches (t : table) (col : string) (key : value) (r : row) : bool :=
  match find_column t col with
  | Some c =>
      let k := apply_affinity (ctype c) key in
      negb (is_null k) && value_eqb (cell_of col (cells r)) k
  | None => false
  end.

Fixpoint set_cell (col : string) (v : value) (cs : list (string * value))
  : list (string * value) :=
  match cs with
  | [] => []
  | (k, old) :: rest =>
      if String.eqb col k then (k, v) :: rest else (k, old) :: set_cell col v rest
  end.

(** [UPDATE t SET set_col = ? WHERE where_col = ?]; the second component is
    the cursor's [rowcount]. *)
Definition update_where (t : table) (set_col : string) (new_value : value)
  (where_col : string) (key : value) : result (table * nat) :=
  match find_column t set_col, find_column t where_col with
  | None, _ => Raise (OperationalError ("no such column: " ++ set_col))
  | _, None => Raise (OperationalError ("no such column: " ++ where_col))
  | Some sc, Some _ =>
      let v := apply_affinity (ctype sc) new_value in
      let hit := filter (matches t where_col key) (rows t) in
      let miss := filter (fun r => negb (matches t where_col key r)) (rows t) in
      if not_null sc && is_null v && negb (List.length hit =? 0)%nat
      then Raise (IntegrityError (NotNull set_col))
      else if unique sc && negb (is_null v) &&
              (existsb (fun r => value_eqb (cell_of set_col (cells r)) v) miss
                 && negb (List.length hit =? 0)%nat
               || (2 <=? List.length hit)%nat)
      then Raise (IntegrityError (Unique set_col))
      else
        Ok ({| columns := columns t;
               rows := map (fun r =>
                              if matches t where_col key r
                              then {| rowid := rowid r;
                                      cells := set_cell set_col v (cells r) |}
                              else r) (rows t);
               seq := seq t |},
            List.length hit)
  end.

(** [DELETE FROM t WHERE where_col = ?] with its [rowcount]. *)
Definition delete_where (t : table) (where_col : string) (key : value)
  : result (table * nat) :=
  match find_column t where_col with
  | None => Raise (OperationalError ("no such column: " ++ where_col))
  | Some _ =>
      Ok ({| columns := columns t;
             rows := filter (fun r => negb (matches t where_col key r)) (rows t);
             seq := seq t |},
          List.length (filter (matches t where_col key) (rows t)))
  end.

Definition get_table (db : database) (name : string) : result table :=
  match assoc name db with
  | Some t => Ok t
  | None => Raise (OperationalError ("no such table: " ++ name))
  end.

Fixpoint set_table (db : database) (name : string) (t : table) : database :=
  match db with
  | [] => [(name, t)]
  | (n, old) :: rest =>
      if String.eqb name n then (n, t) :: rest else (n, old) :: set_table rest name t
  end.

End Sqlite.

(** ** src/DB/schema.py *)

Module Schema.
Import Sqlite.

Definition plain (name : string) (a : affinity) : column :=
  {| cname := name; ctype := a; not_null := false; unique := false |}.

Definition users_columns : list column :=
  [ {| cname := "username"; ctype := TEXT; not_null := true; unique := true |};
    {| cname := "password_hash"; ctype := TEXT; not_null := true; unique := false |};
    {| cname := "role"; ctype := TEXT; not_null := true; unique := false |} ].

Definition cyber_incidents_columns : list column :=
  [ {| cname := "incident_id"; ctype := TEXT; not_null := true; unique := true |};
    plain "incident_type" TEXT; plain "severity" TEXT; plain "status" TEXT;
    plain "reported_at" TEXT; plain "resolved_at" TEXT; plain "assigned_to" TEXT;
    plain "description" TEXT ].

Definition datasets_metadata_columns : list column :=
  [ {| cname := "dataset_name"; ctype := TEXT; not_null := true; unique := true |};
    plain "owner" TEXT; plain "source_system" TEXT; plain "size_mb" REAL;
    plain "row_count" INTEGER; plain "created_at" TEXT ].

Definition it_tickets_columns : list column :=
  [ {| cname := "ticket_id"; ctype := TEXT; not_null := true; unique := true |};
    plain "category" TEXT; plain "priority" TEXT; plain "status" TEXT;
    plain "opened_at" TEXT; plain "closed_at" TEXT; plain "assigned_to" TEXT ].

(** [CREATE TABLE IF NOT EXISTS name (...)] *)
Definition create_table_if_not_exists (db : database) (name : string)
  (cols : list column) : database :=
  match assoc name db with
  | Some _ => db
  | None => set_table db name {| columns := cols; rows := []; seq := 0 |}
  end.

Definition create_tables (db : database) : database :=
  let db := create_table_if_not_exists db "users" users_columns in
  let db := create_table_if_not_exists db "cyber_incidents" cyber_incidents_columns in
  let db := create_table_if_not_exists db "datasets_metadata" datasets_metadata_columns in
  create_table_if_not_exists db "it_tickets" it_tickets_columns.

(** The columns the schema gives a table of that name. *)
Definition schema_of (name : string) : option (list column) :=
  assoc name [ ("users", users_columns);
               ("cyber_incidents", cyber_incidents_columns);
               ("datasets_metadata", datasets_metadata_columns);
               ("it_tickets", it_tickets_columns) ].

End Schema.

(** ** src/DB/crud.py *)

Module Crud.
Import Sqlite.

(** [c.execute("INSERT INTO name (cols) VALUES (?, ...)", params)] followed
    by [_commit(db)]. *)
Definition execute_insert (db : database) (name : string) (cols : list string)
  (params : list value) : result database :=
  do t <- get_table db name ;;
  do t' <- insert_row t cols params ;;
  Ok (set_table db name t').

(** The [try ... except sqlite3.IntegrityError] shared by the four creates:
    an IntegrityError becomes the pair [(False, taken)] and the store is left
    as it was; any other exception propagates. *)
Definition create (db : database) (name : string) (cols : list string)
  (params : list value) (created taken : string)
  : result (database * (bool * string)) :=
  match execute_insert db name cols params with
  | Ok db' => Ok (db', (true, created))
  | Raise (IntegrityError _) => Ok (db, (false, taken))
  | Raise e => Raise e
  end.

Definition quoted (label : string) (key : value) (tail : string) : string :=
  label ++ " '" ++ py_str key ++ "' " ++ tail.

Definition insert_user (db : database) (username password_hash role : value)
  : result (database * (bool * string)) :=
  create db "users" ["username"; "password_hash"; "role"]
         [username; password_hash; role]
         (quoted "User" username "created.")
         (quoted "Username" username "already exists.").

Definition create_incident (db : database)
  (incident_id incident_type severity status reported_at resolved_at
   assigned_to description : value)
  : result (database * (bool * string)) :=
  create db "cyber_incidents"
         ["incident_id"; "incident_type"; "severity"; "status"; "reported_at";
          "resolved_at"; "assigned_to"; "description"]
         [incident_id; incident_type; severity; status; reported_at;
          resolved_at; assigned_to; description]
         (quoted "Incident" incident_id "created.")
         (quoted "Incident ID" incident_id "already exists.").

Definition create_dataset (db : database)
  (dataset_name owner source_system size_mb row_count created_at : value)
  : result (database * (bool * string)) :=
  create db "datasets_metadata"
         ["dataset_name"; "owner"; "source_system"; "size_mb"; "row_count";
          "created_at"]
         [dataset_name; owner; source_system; size_mb; row_count; created_at]
         (quoted "Dataset" dataset_name "created.")
         (quoted "Dataset name" dataset_name "already exists.").

Definition create_ticket (db : database)
  (ticket_id category priority status opened_at closed_at assigned_to : value)
  : result (database * (bool * string)) :=
  create db "it_tickets"
         ["ticket_id"; "category"; "priority"; "status"; "opened_at";
          "closed_at"; "assigned_to"]
         [ticket_id; category; priority; status; opened_at; closed_at;
          assigned_to]
         (quoted "Ticket" ticket_id "created.")
         (quoted "Ticket ID" ticket_id "already exists.").

(** [SELECT 1 FROM name WHERE col = ? LIMIT 1] and [fetchone() is not None]. *)
Definition exists_by_key (db : database) (name col : string) (key : value)
  : result bool :=
  do t <- get_table db name ;;
  if has_column t col
  then Ok (existsb (matches t col key) (rows t))
  else Raise (OperationalError ("no such column: " ++ col)).

Definition incident_exists (db : database) (incident_id : value) : result bool :=
  exists_by_key db "cyber_incidents" "incident_id" incident_id.
Definition dataset_exists (db : database) (dataset_name : value) : result bool :=
  exists_by_key db "datasets_metadata" "dataset_name" dataset_name.
Definition ticket_exists (db : database) (ticket_id : value) : result bool :=
  exists_by_key db "it_tickets" "ticket_id" ticket_id.

(** [SELECT * FROM name] and [fetchall()]. *)
Definition get_all (db : database) (name : string) : result (list row) :=
  do t <- get_table db name ;; Ok (rows t).

(** The UPDATE, the commit and the test of [c.rowcount]. *)
Definition update_by_key (db : database) (name set_col : string) (new_value : value)
  (where_col : string) (key : value) (not_found updated : string)
  : result (database * (bool * string)) :=
  do t <- get_table db name ;;
  do (t', rowcount) <- update_where t set_col new_value where_col key ;;
  let db' := set_table db name t' in
  if (rowcount =? 0)%nat then Ok (db', (false, not_found))
  else Ok (db', (true, updated)).

(** The DELETE, the commit and the test of [c.rowcount]. *)
Definition delete_by_key (db : database) (name where_col : string) (key : value)
  (not_found deleted : string) : result (database * (bool * string)) :=
  do t <- get_table db name ;;
  do (t', rowcount) <- delete_where t where_col key ;;
  let db' := set_table db name t' in
  if (rowcount =? 0)%nat then Ok (db', (false, not_found))
  else Ok (db', (true, deleted)).

(** [SELECT * FROM users WHERE username = ?] and [fetchone()]: the first
    row that matches, or [None]. *)
Definition get_user_by_username (db : database) (username : value)
  : result (option row) :=
  do t <- get_table db "users" ;;
  if has_column t "username"
  then Ok (find (matches t "username" username) (rows t))
  else Raise (OperationalError ("no such column: " ++ "username")).

Definition get_all_incidents (db : database) : result (list row) :=
  get_all db "cyber_incidents".
Definition get_all_datasets (db : database) : result (list row) :=
  get_all db "datasets_metadata".
Definition get_all_tickets (db : database) : result (list row) :=
  get_all db "it_tickets".

Definition no_such (what : string) (key : value) : string :=
  "No " ++ what ++ " '" ++ py_str key ++ "'.".

Definition update_incident_status (db : database) (incident_id new_status : value) :=
  update_by_key db "cyber_incidents" "status" new_status "incident_id" incident_id
    (no_such "incident found with ID" incident_id)
    (quoted "Incident" incident_id "updated.").

Definition delete_incident (db : database) (incident_id : value) :=
  delete_by_key db "cyber_incidents" "incident_id" incident_id
    (no_such "incident found with ID" incident_id)
    (quoted "Incident" incident_id "deleted.").

Definition update_dataset_owner (db : database) (dataset_name new_owner : value) :=
  update_by_key db "datasets_metadata" "owner" new_owner "dataset_name" dataset_name
    (no_such "dataset found with name" dataset_name)
    (quoted "Dataset" dataset_name "updated.").

Definition delete_dataset (db : database) (dataset_name : value) :=
  delete_by_key db "datasets_metadata" "dataset_name" dataset_name
    (no_such "dataset found with name" dataset_name)
    (quoted "Dataset" dataset_name "deleted.").

Definition update_ticket_status (db : database) (ticket_id new_status : value) :=
  update_by_key db "it_tickets" "status" new_status "ticket_id" ticket_id
    (no_such "ticket found with ID" ticket_id)
    (quoted "Ticket" ticket_id "updated.").

Definition delete_ticket (db : database) (ticket_id : value) :=
  delete_by_key db "it_tickets" "ticket_id" ticket_id
    (no_such "ticket found with ID" ticket_id)
    (quoted "Ticket" ticket_id "deleted.").

End Crud.

(** ** The pandas operations used by the loader *)

Module Pandas.
Import Sqlite.

(** A frame as [read_csv] returns it: the header and the records, each record
    aligned with the header. *)
Record DataFrame : Type := mkFrame {
  header : list string;
  records : list (list value)
}.

Definition len (df : DataFrame) : nat := List.length (records df).

Definition empty (df : DataFrame) : bool :=
  match records df with [] => true | _ => false end.

(** The cell of a record under a column of the header. *)
Definition at_col (df : DataFrame) (col : string) (r : list value) : value :=
  cell_of col (combine (header df) r).

Definition has_col (df : DataFrame) (col : string) : bool :=
  existsb (String.eqb col) (header df).

(** [df[col]] *)
Definition series (df : DataFrame) (col : string) : result (list value) :=
  if has_col df col then Ok (map (at_col df col) (records df))
  else Raise (KeyError col).

(** [df.dropna(subset=[col])] *)
Definition dropna (df : DataFrame) (col : string) : result DataFrame :=
  if has_col df col
  then Ok {| header := header df;
             records := filter (fun r => negb (is_null (at_col df col r)))
                               (records df) |}
  else Raise (KeyError col).

(** The scan of [drop_duplicates(keep="first")]: a record is kept when its
    key was not met before. *)
Fixpoint keep_first (key : list value -> value) (seen : list value)
  (rs : list (list value)) : list (list value) :=
  match rs with
  | [] => []
  | r :: rest =>
      if existsb (value_eqb (key r)) seen then keep_first key seen rest
      else r :: keep_first key (key r :: seen) rest
  end.

(** [df.drop_duplicates(subset=[col], keep="first")] *)
Definition drop_duplicates (df : DataFrame) (col : string) : result DataFrame :=
  if has_col df col
  then Ok {| header := header df;
             records := keep_first (at_col df col) [] (records df) |}
  else Raise (KeyError col).

(** [df[mask]] with the mask given record by record. *)
Definition select (df : DataFrame) (mask : list value -> bool) : DataFrame :=
  {| header := header df; records := filter mask (records df) |}.

(** The SQL type pandas gives a new column from the cells it holds. *)
Definition dtype (cs : list value) : affinity :=
  match cs with
  | [] => TEXT
  | _ =>
      if forallb (fun v => match v with VInt _ => true | _ => false end) cs
      then INTEGER
      else if forallb (fun v => match v with VFloat _ | VNull => true | _ => false end) cs
      then REAL
      else TEXT
  end.

(** The table [to_sql] creates for a frame: one column per header name, no
    constraint at all. *)
Definition table_for (df : DataFrame) : table :=
  {| columns := map (fun h => {| cname := h;
                                 ctype := dtype (map (at_col df h) (records df));
                                 not_null := false;
                                 unique := false |}) (header df);
     rows := [];
     seq := 0 |}.

(** [df.to_sql(name, conn, if_exists="append", index=False)]: the table is
    created from the frame when it is missing, then every record is inserted
    in order inside one transaction. *)
Definition to_sql (db : database) (name : string) (df : DataFrame) : result database :=
  let t :=
    match assoc name db with
    | Some t => t
    | None => table_for df
    end in
  do t' <- insert_many t (header df) (records df) ;;
  Ok (set_table db name t').

End Pandas.

(** ** src/DB/load_data.py *)

Module LoadData.
Import Sqlite Pandas.

Definition PK_COL : list (string * string) :=
  [ ("cyber_incidents", "incident_id");
    ("datasets_metadata", "dataset_name");
    ("it_tickets", "ticket_id") ].

Definition _get_existing_keys (db : database) (table pk_col : string)
  : result (list value) :=
  do t <- get_table db table ;;
  do col <- select_column t pk_col ;;
  Ok (filter (fun v => negb (is_null v)) col).

(** [df[pk].astype(str).isin({str(x) for x in existing})] on one record. *)
Definition key_exists (df : DataFrame) (pk : string) (existing : list value)
  (r : list value) : bool :=
  existsb (String.eqb (py_str (at_col df pk r))) (map py_str existing).

(** [csv] is [None] when [csv_path.exists()] is false, else the frame
    [pd.read_csv(csv_path)] returns. The result is the store after the call
    and the returned pair. *)
Definition load_csv_to_table (db : database) (csv : option DataFrame)
  (table_name : string) : result (database * (nat * nat)) :=
  match csv with
  | None => Ok (db, (0, 0)%nat)
  | Some df =>
      match assoc table_name PK_COL with
      | None =>
          do db' <- to_sql db table_name df ;;
          Ok (db', (len df, 0%nat))
      | Some pk =>
          do df <- dropna df pk ;;
          do df <- drop_duplicates df pk ;;
          do existing <- _get_existing_keys db table_name pk ;;
          let mask_new := fun r => negb (key_exists df pk existing r) in
          let skipped := List.length (filter (fun r => negb (mask_new r)) (records df)) in
          let df_new := select df mask_new in
          if negb (empty df_new)
          then do db' <- to_sql db table_name df_new ;;
               Ok (db', (len df_new, skipped))
          else Ok (db, (len df_new, skipped))
      end
  end.

(** [load_all_csv_data]: [files] answers for the directory [DATA]. *)
Definition load_all_csv_data (db : database) (files : string -> option DataFrame)
  : result (database * (nat * nat)) :=
  fold_left
    (fun acc '(filename, table) =>
       do (db, (total_inserted, total_skipped)) <- acc ;;
       do (db', (ins, skp)) <- load_csv_to_table db (files filename) table ;;
       Ok (db', (total_inserted + ins, total_skipped + skp)%nat))
    [ ("cyber_incidents.csv", "cyber_incidents");
      ("datasets_metadata.csv", "datasets_metadata");
      ("it_tickets.csv", "it_tickets") ]
    (Ok (db, (0, 0)%nat)).

End LoadData.

(** ** Vocabulary of the statements *)

Module Vocabulary.
Import PyStr AiHelper Sqlite Pandas LoadData.

(** A well-formed chat completion whose first choice carries [content]. *)
Definition chat_reply (content : string) : json :=
  JObj [ ("id", JStr "gen-1");
         ("choices",
          JArr [ JObj [ ("index", JInt 0);
                        ("message",
                         JObj [ ("role", JStr "assistant");
                                ("content", JStr content) ]) ] ]) ].

(** The values stored under a column, in storage order. *)
Definition key_cells (t : table) (col : string) : list value :=
  map (fun r => cell_of col (cells r)) (rows t).

(** [l] is [m] with some elements left out, the order kept. *)
Inductive subseq {A : Type} : list A -> list A -> Prop :=
| subseq_nil : subseq [] []
| subseq_skip x l m : subseq l m -> subseq l (x :: m)
| subseq_take x l m : subseq l m -> subseq (x :: l) (x :: m).

(** The table a schema of [Schema] gives for a natural key: the key column
    comes first, is TEXT, NOT NULL and UNIQUE, and no other column carries a
    constraint or the key's name. *)
Definition keyed (pk : string) (cols : list column) : Prop :=
  exists rest,
    cols = {| cname := pk; ctype := TEXT; not_null := true; unique := true |} :: rest
    /\ Forall (fun c => not_null c = false /\ unique c = false /\ cname c <> pk) rest.

(** The records the loader keeps after its two cleaning steps. *)
Definition cleaned (df : DataFrame) (pk : string) : list (list value) :=
  keep_first (at_col df pk) []
    (filter (fun r => negb (is_null (at_col df pk r))) (records df)).

(** The normalised strings of the keys a table holds. *)
Definition stored_strs (t : table) (pk : string) : list string :=
  map py_str (filter (fun v => negb (is_null v)) (key_cells t pk)).

(** [str] tells the keys of the frame apart: two records that carry a key
    and print the same key carry the same key. *)
Definition str_distinguishes (df : DataFrame) (pk : string) : Prop :=
  forall r1 r2, In r1 (records df) -> In r2 (records df) ->
    is_null (at_col df pk r1) = false -> is_null (at_col df pk r2) = false ->
    py_str (at_col df pk r1) = py_str (at_col df pk r2) ->
    at_col df pk r1 = at_col df pk r2.

(** Two cells of one pandas dtype (int64, float64 or strings), a missing
    cell apart. *)
Definition same_dtype (a b : value) : bool :=
  match a, b with
  | VNull, _ | _, VNull => true
  | VInt _, VInt _ => true
  | VFloat _, VFloat _ => true
  | VText _, VText _ => true
  | _, _ => false
  end.

(** The three entities with a natural key and a mutable field, and the
    operations of [crud.py] on each. *)
Inductive entity : Type := Incident | Dataset | Ticket.

Definition entity_table (e : entity) : string :=
  match e with
  | Incident => "cyber_incidents"
  | Dataset => "datasets_metadata"
  | Ticket => "it_tickets"
  end.

Definition entity_key (e : entity) : string :=
  match e with
  | Incident => "incident_id"
  | Dataset => "dataset_name"
  | Ticket => "ticket_id"
  end.

Definition entity_field (e : entity) : string :=
  match e with
  | Incident => "status"
  | Dataset => "owner"
  | Ticket => "status"
  end.

Definition entity_columns (e : entity) : list column :=
  match e with
  | Incident => Schema.cyber_incidents_columns
  | Dataset => Schema.datasets_metadata_columns
  | Ticket => Schema.it_tickets_columns
  end.

Definition entity_exists (e : entity) : database -> value -> result bool :=
  match e with
  | Incident => Crud.incident_exists
  | Dataset => Crud.dataset_exists
  | Ticket => Crud.ticket_exists
  end.

Definition entity_update (e : entity)
  : database -> value -> value -> result (database * (bool * string)) :=
  match e with
  | Incident => Crud.update_incident_status
  | Dataset => Crud.update_dataset_owner
  | Ticket => Crud.update_ticket_status
  end.

Definition entity_delete (e : entity)
  : database -> value -> result (database * (bool * string)) :=
  match e with
  | Incident => Crud.delete_incident
  | Dataset => Crud.delete_dataset
  | Ticket => Crud.delete_ticket
  end.

(** The three messages, as the f-strings of [crud.py] build them. *)
Definition not_found_message (e : entity) (key : value) : string :=
  match e with
  | Incident => "No incident found with ID '"
  | Dataset => "No dataset found with name '"
  | Ticket => "No ticket found with ID '"
  end ++ py_str key ++ "'.".

Definition done_message (e : entity) (key : value) (verb : string) : string :=
  match e with
  | Incident => "Incident '"
  | Dataset => "Dataset '"
  | Ticket => "Ticket '"
  end ++ py_str key ++ "' " ++ verb.

(** The key a record carries under the names of an INSERT. *)
Definition given_key (pk : string) (names : list string) (r : list value) : value :=
  cell_of pk (combine names r).

(** The stored row an INSERT makes of a record, for a table of columns
    [cols]. *)
Definition stored (cols : list column) (names : list string) (n : Z)
  (r : list value) : row :=
  {| rowid := n; cells := build_cells cols names r |}.

(** The rows an append adds for a batch, numbered from [n + 1]. *)
Fixpoint appended (cols : list column) (names : list string) (n : Z)
  (batch : list (list value)) : list row :=
  match batch with
  | [] => []
  | r :: rest => stored cols names (n + 1) r :: appended cols names (n + 1) rest
  end.

(** The test the loader makes on a record: is the string of its key among
    the strings of the stored keys? *)
Definition in_store (df : DataFrame) (pk : string) (t : table) (r : list value)
  : bool :=
  existsb (String.eqb (py_str (at_col df pk r))) (stored_strs t pk).

(** The table after a batch was appended to it. *)
Definition grown (t : table) (names : list string) (batch : list (list value))
  : table :=
  {| columns := columns t;
     rows := rows t ++ appended (columns t) names (seq t) batch;
     seq := seq t + Z.of_nat (List.length batch) |}.

(** The records of a frame the loader finds new, and those it skips. *)
Definition new_records (df : DataFrame) (pk : string) (t : table)
  : list (list value) :=
  filter (fun r => negb (in_store df pk t r)) (cleaned df pk).

Definition skipped_records (df : DataFrame) (pk : string) (t : table)
  : list (list value) :=
  filter (in_store df pk t) (cleaned df pk).

End Vocabulary.

(** ** Stores and frames used as examples *)

Module Samples.
Import Sqlite Schema Crud Pandas.

Definition empty_store : database := create_tables [].

(** The store a call leaves, or [db] when the call raised. *)
Definition store_after {A : Type} (db : database) (r : result (database * A))
  : database :=
  match r with
  | Ok (db', _) => db'
  | Raise _ => db
  end.

Definition table_of (db : database) (name : string) : table :=
  match assoc name db with
  | Some t => t
  | None => {| columns := []; rows := []; seq := 0 |}
  end.

(** A store holding the user bob. *)
Definition store_with_bob : database :=
  store_after empty_store
    (insert_user empty_store (VText "bob") (VText "5f4dcc3b") (VText "analyst")).

(** A store holding the incidents INC-1 (Open) and INC-2 (Closed). *)
Definition store_with_incidents : database :=
  let db := store_after empty_store
              (create_incident empty_store (VText "INC-1") (VText "Phishing")
                 (VText "High") (VText "Open") (VText "2024-01-05") VNull
                 (VText "amy") (VText "Suspicious mail")) in
  store_after db
    (create_incident db (VText "INC-2") (VText "Malware") (VText "Low")
       (VText "Closed") (VText "2024-01-07") (VText "2024-01-09")
       (VText "raj") (VText "Trojan on laptop")).

(** A store whose incident table holds the one id "7". *)
Definition store_with_seven : database :=
  store_after empty_store
    (create_incident empty_store (VText "7") (VText "Phishing") (VText "High")
       (VText "Open") (VText "2024-01-05") VNull (VText "amy") (VText "x")).

(** Two records under the key 1, then a record with no key, then key 2. *)
Definition frame_with_duplicates : DataFrame :=
  {| header := ["incident_id"; "status"];
     records := [ [VInt 1; VText "A"]; [VInt 1; VText "B"];
                  [VNull; VText "C"]; [VInt 2; VText "D"] ] |}.

(** A batch against the two stored incidents: a stored id, a fresh id
    twice, and a record with no id. *)
Definition frame_mixed : DataFrame :=
  {| header := ["incident_id"; "severity"; "status"];
     records := [ [VText "INC-1"; VText "High"; VText "Open"];
                  [VText "INC-3"; VText "Low"; VText "Open"];
                  [VText "INC-3"; VText "Low"; VText "Closed"];
                  [VNull; VText "Low"; VText "Open"] ] |}.

(** A batch of two fresh incidents. *)
Definition frame_fresh : DataFrame :=
  {| header := ["incident_id"; "severity"];
     records := [ [VText "INC-7"; VText "High"]; [VText "INC-8"; VText "Low"] ] |}.

(** The two records of the de-duplication example. *)
Definition frame_a_b : DataFrame :=
  {| header := ["incident_id"; "status"];
     records := [ [VInt 1; VText "A"]; [VInt 1; VText "B"] ] |}.

(** One record whose key column was read as the float 7.0. *)
Definition frame_seven_point_zero : DataFrame :=
  {| header := ["incident_id"; "status"];
     records := [ [VFloat "7.0"; VText "Open"] ] |}.

(** A batch for the table of users with the same username twice. *)
Definition frame_users_twice : DataFrame :=
  {| header := ["username"; "password_hash"; "role"];
     records := [ [VText "bob"; VText "5f4dcc3b"; VText "analyst"];
                  [VText "bob"; VText "202cb962"; VText "admin"] ] |}.

(** A batch for a table the schema does not know. *)
Definition frame_notes : DataFrame :=
  {| header := ["note"; "author"];
     records := [ [VText "rotate keys"; VText "amy"]; [VNull; VText "raj"];
                  [VText "rotate keys"; VText "amy"] ] |}.

(** The directory [DATA] with one batch only, for the incidents. *)
Definition only_incidents (filename : string) : option DataFrame :=
  if String.eqb filename "cyber_incidents.csv" then Some frame_mixed else None.

End Samples.

(** ** The store invariant and the entities of the loader *)

Module Store.
Import PyStr AiHelper Sqlite Schema Crud Pandas LoadData Vocabulary.

Definition is_text (v : value) : bool :=
  match v with VText _ => true | _ => false end.

(** What the schema promises of a keyed table and every operation keeps:
    the columns of the schema, keys that are text and pairwise distinct, and
    rows that hold one cell per column. *)
Definition sound (cols : list column) (pk : string) (t : table) : Prop :=
  columns t = cols /\
  NoDup (key_cells t pk) /\
  Forall (fun v => is_text v = true) (key_cells t pk) /\
  Forall (fun r => map fst (cells r) = map cname cols) (rows t).

(** The batch file of an entity in [load_all_csv_data]. *)
Definition entity_file (e : entity) : string :=
  match e with
  | Incident => "cyber_incidents.csv"
  | Dataset => "datasets_metadata.csv"
  | Ticket => "it_tickets.csv"
  end.

Definition entity_get_all (e : entity) : database -> result (list row) :=
  match e with
  | Incident => get_all_incidents
  | Dataset => get_all_datasets
  | Ticket => get_all_tickets
  end.

(** A string of white space only. *)
Fixpoint all_space (s : string) : bool :=
  match s with
  | EmptyString => true
  | String c r => is_space c && all_space r
  end.

(** A batch the loader can work on for a table: the key column is in the
    header, the header names columns of the table, and [str] tells the keys
    apart. *)
Definition loadable (t : table) (pk : string) (df : DataFrame) : Prop :=
  has_col df pk = true /\
  forallb (has_column t) (header df) = true /\
  str_distinguishes df pk.

(** The table an append of the loader works on. *)
Definition target_table (db : database) (name : string) (df : DataFrame) : table :=
  match assoc name db with
  | Some t => t
  | None => table_for df
  end.

(** The table of an entity after a load of [csv], and the pair the load
    returns. *)
Definition loaded_table (t : table) (pk : string) (csv : option DataFrame) : table :=
  match csv with
  | None => t
  | Some df => grown t (header df) (new_records df pk t)
  end.

Definition load_counts (t : table) (pk : string) (csv : option DataFrame)
  : nat * nat :=
  match csv with
  | None => (0, 0)%nat
  | Some df => (List.length (new_records df pk t),
                List.length (skipped_records df pk t))
  end.

(** The rows an entity gets out of three lists, one per entity. *)
Definition rows_for {A : Type} (e : entity) (i d k : A) : A :=
  match e with
  | Incident => i
  | Dataset => d
  | Ticket => k
  end.

End Store.

(** * Theorems *)

Import PyStr AiHelper Sqlite Schema Crud Pandas LoadData Vocabulary Samples Store.

(** ** Strings *)

Lemma prefix_app (p x : string) : String.prefix p (p ++ x) = true.
Proof.
  induction p as [|c p IH]; simpl.
  - now destruct x.
  - destruct (ascii_dec c c) as [_|n]; [exact IH | now elim n].
Qed.

Lemma startswith_error_prefix (x : string) :
  startswith (error_prefix ++ x) error_prefix = true.
Proof. unfold startswith. apply prefix_app. Qed.

(** ** The assistant facade *)

Section Assistant.

Variable post : request -> http_outcome.
Variables (user_message : string) (context_text : option string).

(** With no keyword in the question the parts are the preamble, the context
    echo when there is one, else the generic block, and the disclaimer. *)
Lemma offline_parts_no_keyword :
  wants_priority (lower user_message) = false ->
  wants_phishing (lower user_message) = false ->
  wants_backlog (lower user_message) = false ->
  offline_parts user_message context_text =
    match context_text with
    | Some (String a c) => [preamble; context_block (String a c); disclaimer]
    | _ => [preamble; generic_block; disclaimer]
    end.
Proof.
  intros Hp Hf Hb. unfold offline_parts. rewrite Hp, Hf, Hb.
  destruct context_text as [[|a c]|]; reflexivity.
Qed.

(** No credential: the answer is the offline one. *)
Lemma ask_without_key :
  ask_cyber_assistant None post user_message context_text
  = _offline_response user_message context_text.
Proof. reflexivity. Qed.

End Assistant.

(** C7, on the code: for the question "hello", which holds none of the
    keywords, and the context "ctx", the offline answer is the preamble, the
    context echo and the disclaimer, and holds no generic-guidance block; the
    same question without context gets exactly one. *)
Theorem offline_generic_block_lost_with_context :
  wants_priority (lower "hello") = false /\
  wants_phishing (lower "hello") = false /\
  wants_backlog (lower "hello") = false /\
  offline_parts "hello" (Some "ctx") = [preamble; context_block "ctx"; disclaimer] /\
  count_occ string_dec (offline_parts "hello" (Some "ctx")) generic_block = 0%nat /\
  contains "General guidance" (_offline_response "hello" (Some "ctx")) = false /\
  count_occ string_dec (offline_parts "hello" None) generic_block = 1%nat.
Proof. repeat split; vm_compute; reflexivity. Qed.

Section RemoteCall.

Variables (key : string) (post : request -> http_outcome).
Variables (user_message : string) (context_text : option string).
Hypothesis key_set : truthy (Some key) = true.

Local Abbreviation offline := (_offline_response user_message context_text).
Local Abbreviation sent := (build_request key user_message context_text).

Lemma key_not_empty : negb (truthy (Some key)) = false.
Proof. now rewrite key_set. Qed.

(** An answer made on an error path is shown together with the offline one. *)
Lemma ask_error_answer (detail : string) :
  _openrouter_response (Some key) post user_message context_text
    = Some (error_prefix ++ detail) ->
  ask_cyber_assistant (Some key) post user_message context_text
    = (error_prefix ++ detail) ++ nl ++ nl ++ offline.
Proof.
  intros H. unfold ask_cyber_assistant. rewrite H.
  now rewrite startswith_error_prefix.
Qed.

(** An answer that does not start with the error prefix is returned alone. *)
Lemma ask_plain_answer (answer : string) :
  _openrouter_response (Some key) post user_message context_text = Some answer ->
  startswith answer error_prefix = false ->
  ask_cyber_assistant (Some key) post user_message context_text = answer.
Proof.
  intros H Hs. unfold ask_cyber_assistant. now rewrite H, Hs.
Qed.

Lemma response_post_raised (e : string) :
  post sent = PostRaised e ->
  _openrouter_response (Some key) post user_message context_text
    = Some (error_prefix ++ ": " ++ e).
Proof.
  intros H. unfold _openrouter_response. rewrite key_not_empty.
  now rewrite H.
Qed.

Lemma response_bad_status (status : Z) (text : string) (body : json_outcome) :
  post sent = Response status text body -> status <> 200%Z ->
  _openrouter_response (Some key) post user_message context_text
    = Some (error_prefix ++ ": HTTP " ++ of_Z status ++ " | " ++ text).
Proof.
  intros H Hs. unfold _openrouter_response. rewrite key_not_empty.
  rewrite H.
  destruct (Z.eqb_spec status 200) as [E|_]; [contradiction | reflexivity].
Qed.

Lemma response_bad_body (text e : string) :
  post sent = Response 200 text (JsonRaised e) ->
  _openrouter_response (Some key) post user_message context_text
    = Some (error_prefix ++ ": " ++ e).
Proof.
  intros H. unfold _openrouter_response. rewrite key_not_empty.
  now rewrite H.
Qed.

Lemma response_parsed (text shown : string) (data : json) :
  post sent = Response 200 text (JsonData data shown) ->
  _openrouter_response (Some key) post user_message context_text
    = match read_choices data shown with
      | inl e => Some (error_prefix ++ ": " ++ e)
      | inr answer => Some answer
      end.
Proof.
  intros H. unfold _openrouter_response. rewrite key_not_empty.
  now rewrite H.
Qed.

Lemma read_choices_none (data choices : json) (shown : string) :
  py_get data "choices" JNull = inr choices ->
  json_truthy choices = false ->
  read_choices data shown = inr ("AI API returned no choices. Raw: " ++ shown).
Proof.
  intros Hg Ht. unfold read_choices. now rewrite Hg, Ht.
Qed.

Lemma read_choices_reply (content shown : string) :
  content <> EmptyString ->
  read_choices (chat_reply content) shown = inr (strip content).
Proof.
  intros Hc. destruct content as [|a c]; [now elim Hc | reflexivity].
Qed.

(** C8, amended: with a credential set, a failure that raises or is
    reported by the status (the request raising, a status other than 200, a
    body that is not JSON, a document whose fields have the wrong shape) gives
    the error text, a blank line and the offline answer; a JSON reply with no
    choices gives the notice alone, with no offline answer. *)
Theorem ask_recovers_from_raised_failures :
  (forall e, post sent = PostRaised e ->
     ask_cyber_assistant (Some key) post user_message context_text
       = (error_prefix ++ ": " ++ e) ++ nl ++ nl ++ offline) /\
  (forall status text body,
     post sent = Response status text body -> status <> 200%Z ->
     ask_cyber_assistant (Some key) post user_message context_text
       = (error_prefix ++ ": HTTP " ++ of_Z status ++ " | " ++ text)
         ++ nl ++ nl ++ offline) /\
  (forall text e, post sent = Response 200 text (JsonRaised e) ->
     ask_cyber_assistant (Some key) post user_message context_text
       = (error_prefix ++ ": " ++ e) ++ nl ++ nl ++ offline) /\
  (forall text data shown e,
     post sent = Response 200 text (JsonData data shown) ->
     read_choices data shown = inl e ->
     ask_cyber_assistant (Some key) post user_message context_text
       = (error_prefix ++ ": " ++ e) ++ nl ++ nl ++ offline) /\
  (forall text data shown choices,
     post sent = Response 200 text (JsonData data shown) ->
     py_get data "choices" JNull = inr choices ->
     json_truthy choices = false ->
     ask_cyber_assistant (Some key) post user_message context_text
       = "AI API returned no choices. Raw: " ++ shown).
Proof.
  repeat split.
  - intros e H. apply ask_error_answer, response_post_raised, H.
  - intros status text body H Hs.
    apply ask_error_answer. now apply response_bad_status with (body := body).
  - intros text e H. apply ask_error_answer.
    now apply response_bad_body with (text := text).
  - intros text data shown e H Hr. apply ask_error_answer.
    rewrite (response_parsed text shown data H). now rewrite Hr.
  - intros text data shown choices H Hg Ht. apply ask_plain_answer.
    + rewrite (response_parsed text shown data H).
      now rewrite (read_choices_none data choices shown Hg Ht).
    + reflexivity.
Qed.

(** A successful reply whose text starts with the error prefix gets the
    offline answer appended all the same. *)
Lemma ask_success_with_error_prefix (text shown content : string) :
  post sent = Response 200 text (JsonData (chat_reply content) shown) ->
  content <> EmptyString ->
  startswith (strip content) error_prefix = true ->
  _openrouter_response (Some key) post user_message context_text
    = Some (strip content) /\
  ask_cyber_assistant (Some key) post user_message context_text
    = strip content ++ nl ++ nl ++ offline.
Proof.
  intros H Hc Hs.
  assert (R : _openrouter_response (Some key) post user_message context_text
              = Some (strip content)).
  { rewrite (response_parsed text shown _ H). now rewrite read_choices_reply. }
  split; [exact R|].
  unfold ask_cyber_assistant. now rewrite R, Hs.
Qed.

End RemoteCall.

(** The amended C8 at work: a time-out behind a configured key. *)
Lemma ask_recovers_from_raised_failures_witness :
  truthy (Some "sk-or-1") = true /\
  ask_cyber_assistant (Some "sk-or-1") (fun _ => PostRaised "read timed out")
                      "Is phishing rising?" None
  = (error_prefix ++ ": read timed out") ++ nl ++ nl
    ++ _offline_response "Is phishing rising?" None.
Proof.
  split; [reflexivity|].
  exact (proj1 (ask_recovers_from_raised_failures
                  "sk-or-1" (fun _ => PostRaised "read timed out")
                  "Is phishing rising?" None eq_refl)
               "read timed out" eq_refl).
Defined.

(** C8 as stated fails: a 200 reply whose JSON holds no choices is answered
    by the notice alone; the offline answer is not part of the result. *)
Lemma no_choices_reply_gets_no_offline_answer :
  ask_cyber_assistant (Some "sk-or-1")
                      (fun _ => Response 200 "{}" (JsonData (JObj []) "{}"))
                      "hello" None
  = "AI API returned no choices. Raw: {}" /\
  contains (_offline_response "hello" None)
           (ask_cyber_assistant (Some "sk-or-1")
              (fun _ => Response 200 "{}" (JsonData (JObj []) "{}"))
              "hello" None) = false.
Proof. split; vm_compute; reflexivity. Qed.

(** C10: the facade appends the offline analysis exactly when the remote
    answer starts with "Error calling OpenRouter API", and there is a
    successful call (status 200, a non-empty content) whose content starts
    that way and so gets the offline analysis appended. *)
Theorem offline_appended_by_prefix_test :
  (forall api_key post user_message context_text,
     ask_cyber_assistant api_key post user_message context_text =
       match _openrouter_response api_key post user_message context_text with
       | None => _offline_response user_message context_text
       | Some a =>
           if String.prefix "Error calling OpenRouter API" a
           then a ++ nl ++ nl ++ _offline_response user_message context_text
           else a
       end) /\
  exists key post user_message context_text text shown content,
    truthy (Some key) = true /\
    post (build_request key user_message context_text)
      = Response 200 text (JsonData (chat_reply content) shown) /\
    content <> EmptyString /\
    _openrouter_response (Some key) post user_message context_text = Some content /\
    ask_cyber_assistant (Some key) post user_message context_text
      = content ++ nl ++ nl ++ _offline_response user_message context_text.
Proof.
  split; [reflexivity|].
  exists "sk-or-1",
         (fun _ => Response 200 "..."
                     (JsonData (chat_reply "Error calling OpenRouter API is what a revoked key shows.") "...")),
         "Why does the panel fail?", None, "...", "...",
         "Error calling OpenRouter API is what a revoked key shows.".
  repeat split; try reflexivity. discriminate.
Qed.

(** ** Values, cells and tables *)

Lemma value_eqb_eq (a b : value) : value_eqb a b = true <-> a = b.
Proof.
  destruct a, b; simpl; split; intros H; try discriminate; try reflexivity.
  - apply Z.eqb_eq in H. now subst.
  - inversion H. apply Z.eqb_refl.
  - apply String.eqb_eq in H. now subst.
  - inversion H. apply String.eqb_refl.
  - apply String.eqb_eq in H. now subst.
  - inversion H. apply String.eqb_refl.
Qed.

Lemma value_eqb_refl (a : value) : value_eqb a a = true.
Proof. now apply value_eqb_eq. Qed.

Lemma assoc_set_table (db : database) (name : string) (t t' : table) :
  assoc name db = Some t -> assoc name (set_table db name t') = Some t'.
Proof.
  induction db as [|[n old] db IH]; simpl; [discriminate|].
  destruct (String.eqb name n) eqn:E; simpl; rewrite E; auto.
Qed.

Lemma assoc_set_table_other (db : database) (name other : string) (t' : table) :
  other <> name -> assoc other (set_table db name t') = assoc other db.
Proof.
  intros Hne. induction db as [|[n old] db IH]; simpl.
  - apply String.eqb_neq in Hne. now rewrite Hne.
  - destruct (String.eqb name n) eqn:E; simpl.
    + apply String.eqb_eq in E. subst n.
      apply String.eqb_neq in Hne. now rewrite Hne.
    + now rewrite IH.
Qed.

Lemma set_table_same (db : database) (name : string) (t : table) :
  assoc name db = Some t -> set_table db name t = db.
Proof.
  induction db as [|[n old] db IH]; simpl; [discriminate|].
  destruct (String.eqb name n) eqn:E.
  - intros H. now inversion H.
  - intros H. now rewrite IH.
Qed.

(** ** Update and delete by natural key *)

Section ByKey.

Variables (t : table) (col : string) (key : value).
Hypothesis unique_keys : NoDup (key_cells t col).

Local Abbreviation hit := (matches t col key).

Lemma matches_same_cell (r1 r2 : row) :
  hit r1 = true -> hit r2 = true ->
  cell_of col (cells r1) = cell_of col (cells r2).
Proof.
  unfold matches. destruct (find_column t col); [|discriminate].
  intros H1 H2.
  apply andb_prop in H1 as [_ H1]. apply andb_prop in H2 as [_ H2].
  apply value_eqb_eq in H1, H2. congruence.
Qed.

(** Under a unique key the rows split around the one row a present key
    selects. *)
Lemma present_key_splits :
  existsb hit (rows t) = true ->
  exists l1 r l2,
    rows t = (l1 ++ r :: l2)%list /\ hit r = true /\
    forallb (fun x => negb (hit x)) l1 = true /\
    forallb (fun x => negb (hit x)) l2 = true.
Proof.
  unfold key_cells in unique_keys. revert unique_keys.
  induction (rows t) as [|x rs IH]; simpl; [discriminate|].
  intros Hnd Hex. inversion Hnd as [|? ? Hnotin Hnd']; subst.
  destruct (hit x) eqn:Hx.
  - exists [], x, rs. repeat split; auto.
    apply forallb_forall. intros y Hy.
    destruct (hit y) eqn:Hyy; [|reflexivity].
    exfalso. apply Hnotin. rewrite (matches_same_cell x y Hx Hyy).
    now apply in_map with (f := fun r => cell_of col (cells r)).
  - simpl in Hex. destruct (IH Hnd' Hex) as (l1 & r & l2 & E & Hr & H1 & H2).
    exists (x :: l1), r, l2. rewrite E. simpl. rewrite Hx. simpl. auto.
Qed.

End ByKey.

Lemma filter_none {A : Type} (f : A -> bool) (l : list A) :
  forallb (fun x => negb (f x)) l = true -> filter f l = [].
Proof.
  induction l as [|x l IH]; simpl; [reflexivity|].
  intros H. apply andb_prop in H as [Hx Hl].
  destruct (f x); [discriminate | auto].
Qed.

Lemma filter_all {A : Type} (f : A -> bool) (l : list A) :
  forallb f l = true -> filter f l = l.
Proof.
  induction l as [|x l IH]; simpl; [reflexivity|].
  intros H. apply andb_prop in H as [Hx Hl]. rewrite Hx. now rewrite IH.
Qed.

Lemma map_if_none {A : Type} (f : A -> bool) (g : A -> A) (l : list A) :
  forallb (fun x => negb (f x)) l = true ->
  map (fun x => if f x then g x else x) l = l.
Proof.
  induction l as [|x l IH]; simpl; [reflexivity|].
  intros H. apply andb_prop in H as [Hx Hl].
  destruct (f x); [discriminate | now rewrite IH].
Qed.

Lemma existsb_false_forallb {A : Type} (f : A -> bool) (l : list A) :
  existsb f l = false -> forallb (fun x => negb (f x)) l = true.
Proof.
  induction l as [|x l IH]; simpl; [reflexivity|].
  intros H. apply orb_false_elim in H as [Hx Hl]. rewrite Hx. simpl. auto.
Qed.

Lemma table_eta (t : table) :
  {| columns := columns t; rows := rows t; seq := seq t |} = t.
Proof. now destruct t. Qed.

Lemma entity_exists_eq (e : entity) (db : database) (t : table) (key : value) :
  assoc (entity_table e) db = Some t ->
  columns t = entity_columns e ->
  entity_exists e db key = Ok (existsb (matches t (entity_key e) key) (rows t)).
Proof.
  intros Hdb Hcols.
  destruct e; cbn [entity_table entity_columns] in Hdb, Hcols;
    cbn [entity_exists entity_key];
    unfold incident_exists, dataset_exists, ticket_exists, exists_by_key, get_table;
    rewrite Hdb; cbn [bind]; unfold has_column, column_names; now rewrite Hcols.
Qed.

Lemma entity_update_eq (e : entity) (db : database) (t : table)
  (key new_value : value) :
  assoc (entity_table e) db = Some t ->
  columns t = entity_columns e ->
  entity_update e db key new_value =
    let hit := matches t (entity_key e) key in
    let t' := {| columns := columns t;
                 rows := map (fun r =>
                                if hit r
                                then {| rowid := rowid r;
                                        cells := set_cell (entity_field e)
                                                   (apply_affinity TEXT new_value)
                                                   (cells r) |}
                                else r) (rows t);
                 seq := seq t |} in
    if (List.length (filter hit (rows t)) =? 0)%nat
    then Ok (set_table db (entity_table e) t', (false, not_found_message e key))
    else Ok (set_table db (entity_table e) t', (true, done_message e key "updated.")).
Proof.
  intros Hdb Hcols.
  destruct e; cbn [entity_table entity_columns] in Hdb, Hcols;
    cbn [entity_update entity_key entity_field entity_table];
    unfold update_incident_status, update_dataset_owner, update_ticket_status,
           update_by_key, get_table;
    rewrite Hdb; cbn [bind]; unfold update_where, find_column; rewrite Hcols;
    reflexivity.
Qed.

Lemma entity_delete_eq (e : entity) (db : database) (t : table) (key : value) :
  assoc (entity_table e) db = Some t ->
  columns t = entity_columns e ->
  entity_delete e db key =
    let hit := matches t (entity_key e) key in
    let t' := {| columns := columns t;
                 rows := filter (fun r => negb (hit r)) (rows t);
                 seq := seq t |} in
    if (List.length (filter hit (rows t)) =? 0)%nat
    then Ok (set_table db (entity_table e) t', (false, not_found_message e key))
    else Ok (set_table db (entity_table e) t', (true, done_message e key "deleted.")).
Proof.
  intros Hdb Hcols.
  destruct e; cbn [entity_table entity_columns] in Hdb, Hcols;
    cbn [entity_delete entity_key entity_table];
    unfold delete_incident, delete_dataset, delete_ticket, delete_by_key, get_table;
    rewrite Hdb; cbn [bind]; unfold delete_where, find_column; rewrite Hcols;
    reflexivity.
Qed.

Lemma matches_key_cell (e : entity) (t : table) (key : value) (r : row) :
  columns t = entity_columns e ->
  matches t (entity_key e) key r = true ->
  cell_of (entity_key e) (cells r) = apply_affinity TEXT key.
Proof.
  intros Hcols. unfold matches, find_column. rewrite Hcols.
  destruct e; cbn [entity_key entity_columns find cyber_incidents_columns
                   datasets_metadata_columns it_tickets_columns cname ctype];
    rewrite String.eqb_refl; intros H; apply andb_prop in H as [_ H];
    now apply value_eqb_eq in H.
Qed.

Section Entities.

Variables (e : entity) (db : database) (t : table).
Hypothesis in_store : assoc (entity_table e) db = Some t.
Hypothesis from_schema : columns t = entity_columns e.
Hypothesis unique_keys : NoDup (key_cells t (entity_key e)).

Variable key : value.


End Entities.


(** The same on a present id: exactly the row of INC-1 takes the status. *)
Example update_present_incident :
  update_incident_status store_with_incidents (VText "INC-1") (VText "Resolved")
    = Ok (store_after store_with_incidents
            (update_incident_status store_with_incidents (VText "INC-1")
                                    (VText "Resolved")),
          (true, "Incident 'INC-1' updated.")) /\
  map (fun r => (cell_of "incident_id" (cells r), cell_of "status" (cells r)))
      (rows (table_of
               (store_after store_with_incidents
                  (update_incident_status store_with_incidents (VText "INC-1")
                                          (VText "Resolved")))
               "cyber_incidents"))
    = [(VText "INC-1", VText "Resolved"); (VText "INC-2", VText "Closed")].
Proof. split; vm_compute; reflexivity. Qed.

(** ** The four creates *)

Section Creates.

Variables (db : database) (c : constraint).

Lemma create_on_violation (name : string) (cols : list string)
  (params : list value) (created taken : string) :
  execute_insert db name cols params = Raise (IntegrityError c) ->
  create db name cols params created taken = Ok (db, (false, taken)).
Proof. intros H. unfold create. now rewrite H. Qed.

(** C9: whichever constraint [c] the INSERT of a create violates, the create
    returns [(False, "... already exists.")] with the key it was given and
    leaves the store as it was; the pair does not depend on [c]. A NOT NULL
    violation on password_hash and a duplicate username are both answered by
    the very same pair. *)
Theorem create_reports_any_violation_as_existing :
  (forall username password_hash role,
     execute_insert db "users" ["username"; "password_hash"; "role"]
                    [username; password_hash; role]
       = Raise (IntegrityError c) ->
     insert_user db username password_hash role
       = Ok (db, (false, "Username '" ++ py_str username ++ "' already exists."))) /\
  (forall incident_id incident_type severity status reported_at resolved_at
          assigned_to description,
     execute_insert db "cyber_incidents"
       ["incident_id"; "incident_type"; "severity"; "status"; "reported_at";
        "resolved_at"; "assigned_to"; "description"]
       [incident_id; incident_type; severity; status; reported_at; resolved_at;
        assigned_to; description]
       = Raise (IntegrityError c) ->
     create_incident db incident_id incident_type severity status reported_at
                     resolved_at assigned_to description
       = Ok (db, (false, "Incident ID '" ++ py_str incident_id ++ "' already exists."))) /\
  (forall dataset_name owner source_system size_mb row_count created_at,
     execute_insert db "datasets_metadata"
       ["dataset_name"; "owner"; "source_system"; "size_mb"; "row_count";
        "created_at"]
       [dataset_name; owner; source_system; size_mb; row_count; created_at]
       = Raise (IntegrityError c) ->
     create_dataset db dataset_name owner source_system size_mb row_count created_at
       = Ok (db, (false, "Dataset name '" ++ py_str dataset_name ++ "' already exists."))) /\
  (forall ticket_id category priority status opened_at closed_at assigned_to,
     execute_insert db "it_tickets"
       ["ticket_id"; "category"; "priority"; "status"; "opened_at"; "closed_at";
        "assigned_to"]
       [ticket_id; category; priority; status; opened_at; closed_at; assigned_to]
       = Raise (IntegrityError c) ->
     create_ticket db ticket_id category priority status opened_at closed_at
                   assigned_to
       = Ok (db, (false, "Ticket ID '" ++ py_str ticket_id ++ "' already exists."))) /\
  (execute_insert store_with_bob "users" ["username"; "password_hash"; "role"]
                  [VText "bob"; VNull; VText "admin"]
     = Raise (IntegrityError (NotNull "password_hash")) /\
   execute_insert store_with_bob "users" ["username"; "password_hash"; "role"]
                  [VText "bob"; VText "202cb962"; VText "admin"]
     = Raise (IntegrityError (Unique "username")) /\
   insert_user store_with_bob (VText "bob") VNull (VText "admin")
     = Ok (store_with_bob, (false, "Username 'bob' already exists.")) /\
   insert_user store_with_bob (VText "bob") (VText "202cb962") (VText "admin")
     = Ok (store_with_bob, (false, "Username 'bob' already exists."))).
Proof.
  split; [|split; [|split; [|split]]].
  - intros. unfold insert_user. now apply create_on_violation.
  - intros. unfold create_incident. now apply create_on_violation.
  - intros. unfold create_dataset. now apply create_on_violation.
  - intros. unfold create_ticket. now apply create_on_violation.
  - repeat split; vm_compute; reflexivity.
Qed.

End Creates.

(** C9 at work: a fresh username with no password hash violates NOT NULL on
    a field that is not the key, and the answer still says the username
    exists. *)
Lemma create_reports_any_violation_as_existing_witness :
  execute_insert empty_store "users" ["username"; "password_hash"; "role"]
                 [VText "eve"; VNull; VText "admin"]
    = Raise (IntegrityError (NotNull "password_hash")) /\
  insert_user empty_store (VText "eve") VNull (VText "admin")
    = Ok (empty_store, (false, "Username 'eve' already exists.")).
Proof.
  split; [reflexivity|].
  exact (proj1 (create_reports_any_violation_as_existing
                  empty_store (NotNull "password_hash"))
               (VText "eve") VNull (VText "admin") eq_refl).
Defined.

(** ** Cleaning a frame *)

Lemma existsb_value_In (v : value) (l : list value) :
  existsb (value_eqb v) l = true <-> In v l.
Proof.
  rewrite existsb_exists. split.
  - intros (x & Hx & E). apply value_eqb_eq in E. now subst.
  - intros H. exists v. split; [exact H | apply value_eqb_refl].
Qed.

Lemma existsb_value_not_In (v : value) (l : list value) :
  existsb (value_eqb v) l = false <-> ~ In v l.
Proof.
  split.
  - intros H Hin. apply existsb_value_In in Hin. congruence.
  - intros H. destruct (existsb (value_eqb v) l) eqn:E; [|reflexivity].
    apply existsb_value_In in E. contradiction.
Qed.

Section KeepFirst.

Variable key : list value -> value.

Lemma keep_first_subseq (seen : list value) (rs : list (list value)) :
  subseq (keep_first key seen rs) rs.
Proof.
  revert seen. induction rs as [|x rs IH]; intros seen; simpl.
  - constructor.
  - destruct (existsb (value_eqb (key x)) seen).
    + apply subseq_skip, IH.
    + apply subseq_take, IH.
Qed.

(** A record is kept exactly when it stands at the first place its key
    occurs and that key was not seen before. *)
Lemma keep_first_In (seen : list value) (rs : list (list value)) (r : list value) :
  In r (keep_first key seen rs) <->
  exists l1 l2, rs = (l1 ++ r :: l2)%list /\ ~ In (key r) seen /\
                forall x, In x l1 -> key x <> key r.
Proof.
  split.
  - revert seen. induction rs as [|x rs IH]; intros seen; simpl; [tauto|].
    destruct (existsb (value_eqb (key x)) seen) eqn:E.
    + intros H. destruct (IH _ H) as (l1 & l2 & -> & Hs & Hl).
      exists (x :: l1), l2. repeat split; auto.
      intros y [<-|Hy]; [|now apply Hl].
      apply existsb_value_In in E. congruence.
    + intros [<-|H].
      * exists [], rs. repeat split; [now apply existsb_value_not_In | tauto].
      * destruct (IH _ H) as (l1 & l2 & -> & Hs & Hl).
        exists (x :: l1), l2. repeat split.
        -- intros Hin. apply Hs. now right.
        -- intros y [<-|Hy]; [|now apply Hl].
           intros Heq. apply Hs. now left.
  - intros (l1 & l2 & -> & Hs & Hl). revert seen Hs.
    induction l1 as [|x l1 IH]; intros seen Hs; simpl.
    + apply existsb_value_not_In in Hs. rewrite Hs. now left.
    + assert (Hx : key x <> key r) by (apply Hl; now left).
      assert (Hl' : forall y, In y l1 -> key y <> key r)
        by (intros y Hy; apply Hl; now right).
      destruct (existsb (value_eqb (key x)) seen).
      * now apply IH.
      * right. apply IH; [exact Hl'|]. intros [E|Hin]; auto.
Qed.

Lemma keep_first_fresh (seen : list value) (rs : list (list value)) (r : list value) :
  In r (keep_first key seen rs) -> In r rs /\ ~ In (key r) seen.
Proof.
  intros H. apply keep_first_In in H as (l1 & l2 & -> & Hs & _).
  split; [|exact Hs]. apply in_or_app. right. now left.
Qed.

Lemma keep_first_NoDup (seen : list value) (rs : list (list value)) :
  NoDup (map key (keep_first key seen rs)).
Proof.
  revert seen. induction rs as [|x rs IH]; intros seen; simpl; [constructor|].
  destruct (existsb (value_eqb (key x)) seen); [apply IH|].
  simpl. constructor; [|apply IH].
  intros Hin. apply in_map_iff in Hin as (y & Hy & Hin).
  apply keep_first_fresh in Hin as [_ Hn]. apply Hn. left. now symmetry.
Qed.

(** Every key of the input is still there afterwards. *)
Lemma keep_first_keeps_keys (rs : list (list value)) (r : list value) :
  In r rs -> In (key r) (map key (keep_first key [] rs)).
Proof.
  intros Hin. assert (G : forall seen, In (key r) seen \/
                          In (key r) (map key (keep_first key seen rs))).
  { induction rs as [|x rs IH]; [contradiction|]. intros seen. simpl.
    destruct (existsb (value_eqb (key x)) seen) eqn:E.
    - destruct Hin as [->|Hin]; [left; now apply existsb_value_In | now apply IH].
    - destruct Hin as [->|Hin]; [right; now left|].
      destruct (IH Hin (key x :: seen)) as [[Hx|Hs]|Hk].
      + right. left. exact Hx.
      + now left.
      + right. now right. }
  destruct (G []) as [[]|H]; exact H.
Qed.

End KeepFirst.

(** C2: [drop_duplicates] keeps the header, keeps the records in their
    original order, keeps a record exactly when no earlier record has its
    key, and leaves every key once; and loading the two records (k=1, v=A),
    (k=1, v=B) into the empty incident table stores the one row with v=A. *)
Theorem drop_duplicates_keeps_first_occurrence :
  (forall df pk, has_col df pk = true ->
     exists df', drop_duplicates df pk = Ok df' /\
       header df' = header df /\
       subseq (records df') (records df) /\
       NoDup (map (at_col df pk) (records df')) /\
       (forall r, In r (records df) ->
                  In (at_col df pk r) (map (at_col df pk) (records df'))) /\
       (forall r, In r (records df') <->
          exists l1 l2, records df = (l1 ++ r :: l2)%list /\
            forall x, In x l1 -> at_col df pk x <> at_col df pk r)) /\
  (exists db', load_csv_to_table empty_store (Some frame_a_b) "cyber_incidents"
                 = Ok (db', (1, 0)%nat) /\
     map (fun r => (cell_of "incident_id" (cells r), cell_of "status" (cells r)))
         (rows (table_of db' "cyber_incidents"))
       = [(VText "1", VText "A")]).
Proof.
  split.
  - intros df pk H. unfold drop_duplicates. rewrite H.
    eexists. split; [reflexivity|]. simpl.
    split; [reflexivity|]. split; [apply keep_first_subseq|].
    split; [apply keep_first_NoDup|]. split; [apply keep_first_keeps_keys|].
    intros r. rewrite keep_first_In. split.
    + intros (l1 & l2 & E & _ & Hl). now exists l1, l2.
    + intros (l1 & l2 & E & Hl). exists l1, l2. repeat split; auto.
  - eexists. split; vm_compute; reflexivity.
Qed.

(** C2 at work on a frame with a repeated key, a missing key and a fresh
    one. *)
Lemma drop_duplicates_keeps_first_occurrence_witness :
  exists df',
    drop_duplicates frame_with_duplicates "incident_id" = Ok df' /\
    records df' = [ [VInt 1; VText "A"]; [VNull; VText "C"]; [VInt 2; VText "D"] ].
Proof.
  destruct (proj1 drop_duplicates_keeps_first_occurrence
                  frame_with_duplicates "incident_id" eq_refl)
    as (df' & E & _).
  exists df'. split; [exact E|].
  vm_compute in E. injection E as <-. reflexivity.
Defined.

(** ** Inserting into a keyed table *)

Lemma find_none_all {A : Type} (f : A -> bool) (l : list A) :
  (forall x, In x l -> f x = false) -> find f l = None.
Proof.
  induction l as [|x l IH]; simpl; [reflexivity|].
  intros H. rewrite (H x (or_introl eq_refl)). apply IH.
  intros y Hy. apply H. now right.
Qed.

Lemma find_negb_none {A : Type} (f : A -> bool) (l : list A) :
  forallb f l = true -> find (fun x => negb (f x)) l = None.
Proof.
  intros H. apply find_none_all. intros x Hx.
  rewrite forallb_forall in H. now rewrite (H x Hx).
Qed.

Lemma py_str_affinity (k : value) : py_str (apply_affinity TEXT k) = py_str k.
Proof. now destruct k. Qed.

Lemma is_null_affinity (k : value) : is_null (apply_affinity TEXT k) = is_null k.
Proof. now destruct k. Qed.

Lemma at_col_given_key (df : DataFrame) (pk : string) (r : list value) :
  at_col df pk r = given_key pk (header df) r.
Proof. reflexivity. Qed.

Section KeyedInsert.

Variables (pk : string) (names : list string).

(** The key cell of the row an INSERT builds is the given key as text. *)
Lemma key_of_stored (cols : list column) (n : Z) (r : list value) :
  keyed pk cols ->
  cell_of pk (cells (stored cols names n r))
    = apply_affinity TEXT (given_key pk names r).
Proof.
  intros (rest & -> & _). unfold stored, given_key, cell_of. simpl.
  rewrite String.eqb_refl. now destruct (assoc pk (combine names r)).
Qed.

Lemma keyed_has_pk (t : table) : keyed pk (columns t) -> has_column t pk = true.
Proof.
  intros (rest & E & _). unfold has_column, column_names. rewrite E. simpl.
  now rewrite String.eqb_refl.
Qed.

(** One INSERT into a keyed table succeeds when the names are columns, the
    key is not null and its text is not stored yet. *)
Lemma insert_row_keyed (t : table) (r : list value) :
  keyed pk (columns t) ->
  forallb (has_column t) names = true ->
  is_null (given_key pk names r) = false ->
  ~ In (apply_affinity TEXT (given_key pk names r)) (key_cells t pk) ->
  insert_row t names r
    = Ok {| columns := columns t;
            rows := rows t ++ [stored (columns t) names (seq t + 1) r];
            seq := seq t + 1 |}.
Proof.
  intros Hk Hn Hnull Hnew. unfold insert_row.
  rewrite (find_negb_none _ _ Hn).
  pose proof (key_of_stored (columns t) (seq t + 1) r Hk) as Hcell.
  unfold stored in Hcell. cbn [cells] in Hcell.
  destruct Hk as (rest & E & Hrest). rewrite Forall_forall in Hrest.
  rewrite find_none_all.
  - rewrite find_none_all; [reflexivity|].
    intros c Hc. rewrite E in Hc. destruct Hc as [<-|Hc].
    + unfold violates_unique. cbn [unique cname]. rewrite Hcell.
      rewrite is_null_affinity, Hnull. cbn [negb andb].
      destruct (existsb _ (rows t)) eqn:Ex; [|reflexivity].
      exfalso. apply Hnew. apply existsb_exists in Ex as (x & Hx & Ex).
      apply value_eqb_eq in Ex. rewrite <- Ex. unfold key_cells.
      now apply in_map with (f := fun r0 => cell_of pk (cells r0)).
    + unfold violates_unique. now rewrite (proj1 (proj2 (Hrest c Hc))).
  - intros c Hc. rewrite E in Hc. destruct Hc as [<-|Hc].
    + unfold violates_not_null. cbn [not_null cname]. rewrite Hcell.
      now rewrite is_null_affinity, Hnull.
    + unfold violates_not_null. now rewrite (proj1 (Hrest c Hc)).
Qed.

Lemma key_cells_appended (cols : list column) (n : Z) (batch : list (list value)) :
  keyed pk cols ->
  map (fun r => cell_of pk (cells r)) (appended cols names n batch)
    = map (fun r => apply_affinity TEXT (given_key pk names r)) batch.
Proof.
  intros Hk. revert n. induction batch as [|r batch IH]; intros n.
  - reflexivity.
  - cbn [appended map]. now rewrite IH, (key_of_stored _ _ _ Hk).
Qed.

(** A whole batch goes into a keyed table when no key is null and the texts
    of the keys are pairwise distinct and not stored yet: the rows are
    appended in order. *)
Lemma insert_many_keyed (batch : list (list value)) :
  forall t,
  keyed pk (columns t) ->
  forallb (has_column t) names = true ->
  (forall r, In r batch -> is_null (given_key pk names r) = false) ->
  NoDup (map (fun r => apply_affinity TEXT (given_key pk names r)) batch) ->
  (forall r, In r batch ->
     ~ In (apply_affinity TEXT (given_key pk names r)) (key_cells t pk)) ->
  insert_many t names batch = Ok (grown t names batch).
Proof.
  unfold grown.
  induction batch as [|r batch IH]; intros t Hk Hn Hnull Hnd Hnew.
  - simpl. rewrite app_nil_r, Z.add_0_r. now rewrite table_eta.
  - cbn [insert_many]. cbn [map] in Hnd. apply NoDup_cons_iff in Hnd as [Hr Hnd'].
    rewrite (insert_row_keyed t r Hk Hn); [|apply Hnull; now left | apply Hnew; now left].
    cbn [bind]. rewrite IH; cbn [columns rows seq]; auto.
    + f_equal. f_equal.
      * now rewrite <- app_assoc.
      * cbn [List.length]. lia.
    + intros x Hx. apply Hnull. now right.
    + intros x Hx. unfold key_cells. cbn [rows]. rewrite map_app, in_app_iff.
      intros [Hold|Hlast].
      * apply (Hnew x); [now right | exact Hold].
      * cbn [map In] in Hlast. destruct Hlast as [Hlast|[]].
        rewrite (key_of_stored _ _ _ Hk) in Hlast.
        apply Hr. rewrite Hlast.
        now apply in_map with (f := fun r0 => apply_affinity TEXT (given_key pk names r0)).
Qed.

(** Whatever the table, an append that succeeds has added one row per
    record, in order, and changed nothing else. *)
Lemma insert_many_appends (batch : list (list value)) :
  forall t t',
  insert_many t names batch = Ok t' ->
  t' = grown t names batch.
Proof.
  unfold grown.
  induction batch as [|r batch IH]; intros t t' H.
  - simpl in H. injection H as <-. simpl.
    now rewrite app_nil_r, Z.add_0_r, table_eta.
  - cbn [insert_many] in H. destruct (insert_row t names r) as [t1|e] eqn:E;
      [|discriminate].
    cbn [bind] in H. apply IH in H. subst t'.
    unfold insert_row in E.
    destruct (find _ names); [discriminate|].
    destruct (find _ (columns t)); [discriminate|].
    destruct (find _ (columns t)); [discriminate|].
    injection E as <-. cbn [columns rows seq appended].
    f_equal.
    + now rewrite <- app_assoc.
    + cbn [List.length]. lia.
Qed.

End KeyedInsert.

(** ** The loader on a keyed table *)

Lemma pk_col_keyed (table_name pk : string) (cols : list column) :
  assoc table_name PK_COL = Some pk ->
  schema_of table_name = Some cols ->
  keyed pk cols.
Proof.
  unfold PK_COL, schema_of. cbn [assoc].
  destruct (String.eqb_spec table_name "users") as [->|_]; [discriminate|].
  destruct (String.eqb table_name "cyber_incidents");
    [|destruct (String.eqb table_name "datasets_metadata");
      [|destruct (String.eqb table_name "it_tickets"); [|discriminate]]];
    intros Hpk Hs; injection Hpk as <-; injection Hs as <-;
    eexists; (split; [reflexivity|]);
    repeat constructor; discriminate.
Qed.

Lemma NoDup_map_filter {K R : Type} (keep : R -> bool) (key : R -> K) :
  forall rs : list R, NoDup (map key rs) -> NoDup (map key (filter keep rs)).
Proof.
  intros rs. induction rs as [|x rs IH]; simpl; [auto|].
  intros H. apply NoDup_cons_iff in H as [Hx Hl].
  destruct (keep x); [|auto]. simpl. constructor; [|auto].
  intros Hin. apply Hx. apply in_map_iff in Hin as (y & E & Hy).
  apply filter_In in Hy as [Hy _]. rewrite <- E. now apply in_map.
Qed.

Lemma NoDup_map_finer {A B C : Type} (f : A -> B) (g : A -> C) (l : list A) :
  (forall x y, In x l -> In y l -> g x = g y -> f x = f y) ->
  NoDup (map f l) -> NoDup (map g l).
Proof.
  induction l as [|x l IH]; simpl; [constructor|].
  intros Hinj H. apply NoDup_cons_iff in H as [Hx Hl]. constructor.
  - intros Hin. apply Hx. apply in_map_iff in Hin as (y & E & Hy).
    rewrite (Hinj x y); auto. now apply in_map.
  - apply IH; auto.
Qed.

Lemma filter_negb_negb {A : Type} (f : A -> bool) (l : list A) :
  filter (fun x => negb (negb (f x))) l = filter f l.
Proof. apply filter_ext. intros x. apply negb_involutive. Qed.

Lemma filter_split_length {A : Type} (f : A -> bool) (l : list A) :
  (List.length (filter (fun x => negb (f x)) l) + List.length (filter f l)
   = List.length l)%nat.
Proof.
  induction l as [|x l IH]; simpl; [reflexivity|].
  destruct (f x); simpl; lia.
Qed.

Lemma to_sql_existing (db : database) (name : string) (t : table) (df : DataFrame) :
  assoc name db = Some t ->
  to_sql db name df
    = bind (insert_many t (header df) (records df))
           (fun t' => Ok (set_table db name t')).
Proof. intros H. unfold to_sql. now rewrite H. Qed.

Lemma grown_nothing (t : table) (names : list string) : grown t names [] = t.
Proof.
  unfold grown. simpl. rewrite app_nil_r, Z.add_0_r. apply table_eta.
Qed.

Lemma subseq_trans {A : Type} (a b c : list A) :
  subseq a b -> subseq b c -> subseq a c.
Proof.
  intros Hab Hbc. revert a Hab.
  induction Hbc as [|x b c Hbc IH|x b c Hbc IH]; intros a Hab.
  - exact Hab.
  - apply subseq_skip. now apply IH.
  - inversion Hab; subst.
    + apply subseq_skip. now apply IH.
    + apply subseq_take. now apply IH.
Qed.

Lemma subseq_filter {A : Type} (p : A -> bool) (l : list A) :
  subseq (filter p l) l.
Proof.
  induction l as [|x l IH]; simpl; [constructor|].
  destruct (p x); [now apply subseq_take | now apply subseq_skip].
Qed.

(** A place in a filtered list is a place in the list it was filtered
    from. *)
Lemma filter_split {A : Type} (p : A -> bool) (l m1 m2 : list A) (r : A) :
  filter p l = (m1 ++ r :: m2)%list ->
  exists l1 l2, l = (l1 ++ r :: l2)%list /\ filter p l1 = m1 /\ p r = true.
Proof.
  revert m1. induction l as [|x l IH]; intros m1; simpl.
  - destruct m1; discriminate.
  - destruct (p x) eqn:Hx.
    + destruct m1 as [|y m1]; simpl; intros E; injection E as -> E.
      * exists [], l. auto.
      * destruct (IH _ E) as (l1 & l2 & -> & <- & Hr).
        exists (y :: l1), l2. simpl. rewrite Hx. auto.
    + intros E. destruct (IH _ E) as (l1 & l2 & -> & <- & Hr).
      exists (x :: l1), l2. simpl. rewrite Hx. auto.
Qed.

(** The cleaned records are the records that carry a key and stand at the
    first place of that key. *)
Lemma cleaned_In (df : DataFrame) (pk : string) (r : list value) :
  In r (cleaned df pk) <->
  is_null (at_col df pk r) = false /\
  exists l1 l2, records df = (l1 ++ r :: l2)%list /\
    forall x, In x l1 -> at_col df pk x <> at_col df pk r.
Proof.
  unfold cleaned. rewrite keep_first_In. split.
  - intros (m1 & m2 & E & _ & Hm).
    destruct (filter_split _ _ _ _ _ E) as (l1 & l2 & El & <- & Hr).
    apply negb_true_iff in Hr. split; [exact Hr|].
    exists l1, l2. split; [exact El|]. intros x Hx.
    destruct (is_null (at_col df pk x)) eqn:Hn.
    + intros Heq. rewrite Heq in Hn. congruence.
    + apply Hm. apply filter_In. split; [exact Hx|]. now rewrite Hn.
  - intros (Hn & l1 & l2 & E & Hl).
    exists (filter (fun r0 => negb (is_null (at_col df pk r0))) l1),
           (filter (fun r0 => negb (is_null (at_col df pk r0))) l2).
    split; [|split; [tauto|]].
    + rewrite E, filter_app. simpl. now rewrite Hn.
    + intros x Hx. apply filter_In in Hx as [Hx _]. now apply Hl.
Qed.

Lemma to_int_not_nil (z : Z) : Z.to_int z <> Pos Nil /\ Z.to_int z <> Neg Nil.
Proof.
  destruct z; simpl; split; try discriminate; intros [= H];
    now apply DecimalPos.Unsigned.to_uint_nonnil in H.
Qed.

(** [str] of an integer tells integers apart. *)
Lemma of_Z_inj (a b : Z) : of_Z a = of_Z b -> a = b.
Proof.
  unfold of_Z. intros H.
  assert (E : NilZero.int_of_string (NilZero.string_of_int (Z.to_int a))
              = NilZero.int_of_string (NilZero.string_of_int (Z.to_int b)))
    by now rewrite H.
  rewrite !NilZero.isi in E by apply to_int_not_nil.
  injection E as E.
  rewrite <- (DecimalZ.of_to a), <- (DecimalZ.of_to b). now rewrite E.
Qed.

(** A key column of one dtype, as [read_csv] makes them, is told apart by
    [str]. *)
Lemma one_dtype_distinguishes (df : DataFrame) (pk : string) :
  (forall r1 r2, In r1 (records df) -> In r2 (records df) ->
     same_dtype (at_col df pk r1) (at_col df pk r2) = true) ->
  str_distinguishes df pk.
Proof.
  intros H r1 r2 H1 H2 N1 N2 E. specialize (H r1 r2 H1 H2).
  destruct (at_col df pk r1), (at_col df pk r2); try discriminate;
    simpl in E; try now subst.
  now apply of_Z_inj in E; subst.
Qed.

Section KeyedLoad.

Variables (db : database) (t : table) (table_name pk : string) (df : DataFrame).
Hypothesis configured : assoc table_name PK_COL = Some pk.
Hypothesis in_db : assoc table_name db = Some t.
Hypothesis from_schema : schema_of table_name = Some (columns t).
Hypothesis has_key : has_col df pk = true.

Lemma table_keyed : keyed pk (columns t).
Proof. exact (pk_col_keyed _ _ _ configured from_schema). Qed.

(** The cleaned records carry a key, each key once, and come from the
    frame. *)
Lemma cleaned_records (r : list value) :
  In r (cleaned df pk) ->
  In r (records df) /\ is_null (at_col df pk r) = false.
Proof.
  intros H. apply keep_first_fresh in H as [H _].
  apply filter_In in H as [Hin Hn]. split; [exact Hin|].
  now destruct (is_null (at_col df pk r)).
Qed.

Lemma cleaned_NoDup : NoDup (map (at_col df pk) (cleaned df pk)).
Proof. apply keep_first_NoDup. Qed.

(** The loader up to the append, with the pandas steps carried out. *)
Lemma load_keyed_steps :
  load_csv_to_table db (Some df) table_name =
    let df_new := {| header := header df; records := new_records df pk t |} in
    let skipped := List.length (skipped_records df pk t) in
    if negb (empty df_new)
    then bind (to_sql db table_name df_new)
              (fun db' => Ok (db', (len df_new, skipped)))
    else Ok (db, (len df_new, skipped)).
Proof.
  unfold load_csv_to_table. rewrite configured.
  unfold dropna. rewrite has_key. cbn [bind].
  unfold drop_duplicates, has_col. cbn [header records].
  unfold has_col in has_key. rewrite has_key. cbn [bind].
  unfold _get_existing_keys, get_table. rewrite in_db. cbn [bind].
  unfold select_column. rewrite (keyed_has_pk _ _ table_keyed). cbn [bind].
  unfold select. cbn [header records].
  rewrite filter_negb_negb. reflexivity.
Qed.

Hypothesis known_columns : forallb (has_column t) (header df) = true.
Hypothesis one_dtype : str_distinguishes df pk.

Lemma new_records_cleaned (r : list value) :
  In r (new_records df pk t) ->
  In r (cleaned df pk) /\ in_store df pk t r = false.
Proof.
  intros H. apply filter_In in H as [Hin Hs]. split; [exact Hin|].
  now destruct (in_store df pk t r).
Qed.

(** The append of the new records succeeds. *)
Lemma append_new_records :
  insert_many t (header df) (new_records df pk t)
    = Ok (grown t (header df) (new_records df pk t)).
Proof.
  apply insert_many_keyed with (pk := pk).
  - exact table_keyed.
  - exact known_columns.
  - intros r Hr. apply new_records_cleaned in Hr as [Hr _].
    now apply cleaned_records in Hr as [_ Hr].
  - apply NoDup_map_finer with (f := at_col df pk).
    + intros x y Hx Hy E.
      apply new_records_cleaned in Hx as [Hx _], Hy as [Hy _].
      apply cleaned_records in Hx as [Hx Hnx], Hy as [Hy Hny].
      apply one_dtype; auto.
      rewrite <- (py_str_affinity (at_col df pk x)),
              <- (py_str_affinity (at_col df pk y)).
      rewrite !at_col_given_key. now rewrite E.
    + apply NoDup_map_filter, cleaned_NoDup.
  - intros r Hr Hin. apply new_records_cleaned in Hr as [Hr Hs].
    apply cleaned_records in Hr as [_ Hn].
    unfold in_store in Hs.
    assert (Hex : existsb (String.eqb (py_str (at_col df pk r)))
                          (stored_strs t pk) = true).
    { apply existsb_exists. exists (py_str (at_col df pk r)).
      split; [|apply String.eqb_refl].
      unfold stored_strs.
      rewrite <- (py_str_affinity (at_col df pk r)).
      apply in_map. apply filter_In. split; [exact Hin|].
      rewrite at_col_given_key.
      now rewrite is_null_affinity, <- at_col_given_key, Hn. }
    congruence.
Qed.

(** The loader on a keyed table: it returns, the store holds the new
    records appended, and the pair counts the new records and the records
    whose key was stored already. *)
Lemma load_keyed :
  load_csv_to_table db (Some df) table_name
    = Ok (set_table db table_name (grown t (header df) (new_records df pk t)),
          (List.length (new_records df pk t),
           List.length (skipped_records df pk t))).
Proof.
  rewrite load_keyed_steps. cbv zeta. unfold empty, len. cbn [records header].
  destruct (new_records df pk t) as [|r rest] eqn:E.
  - cbn [negb]. rewrite grown_nothing.
    now rewrite (set_table_same _ _ _ in_db).
  - cbn [negb]. rewrite (to_sql_existing _ _ _ _ in_db). cbn [header records].
    rewrite <- E, append_new_records. reflexivity.
Qed.


End KeyedLoad.


(** ** Loading the same batch twice *)

Lemma keep_first_all (key : list value -> value) (rs : list (list value)) :
  forall seen,
  NoDup (map key rs) ->
  (forall r, In r rs -> ~ In (key r) seen) ->
  keep_first key seen rs = rs.
Proof.
  induction rs as [|x rs IH]; intros seen Hnd Hs; simpl; [reflexivity|].
  cbn [map] in Hnd. apply NoDup_cons_iff in Hnd as [Hx Hnd].
  rewrite (proj2 (existsb_value_not_In _ _) (Hs x (or_introl eq_refl))).
  f_equal. apply IH; [exact Hnd|].
  intros r Hr [E|Hin].
  - apply Hx. rewrite E. now apply in_map.
  - apply (Hs r); [now right | exact Hin].
Qed.

(** A frame whose records all carry a key, each key once, is left as it is
    by the two cleaning steps. *)
Lemma cleaned_valid_frame (df : DataFrame) (pk : string) :
  (forall r, In r (records df) -> is_null (at_col df pk r) = false) ->
  NoDup (map (at_col df pk) (records df)) ->
  cleaned df pk = records df.
Proof.
  intros Hn Hnd. unfold cleaned. rewrite filter_all.
  - apply keep_first_all; auto.
  - apply forallb_forall. intros r Hr. now rewrite (Hn r Hr).
Qed.

Section LoadTwice.

Variables (db : database) (t : table) (table_name pk : string) (df : DataFrame).
Hypothesis configured : assoc table_name PK_COL = Some pk.
Hypothesis in_db : assoc table_name db = Some t.
Hypothesis from_schema : schema_of table_name = Some (columns t).
Hypothesis has_key : has_col df pk = true.
Hypothesis known_columns : forallb (has_column t) (header df) = true.
Hypothesis one_dtype : str_distinguishes df pk.
Hypothesis fresh_keys :
  forall r, In r (records df) -> is_null (at_col df pk r) = false ->
            in_store df pk t r = false.

Local Abbreviation t' := (grown t (header df) (cleaned df pk)).
Local Abbreviation db' := (set_table db table_name t').

Lemma first_run_new : new_records df pk t = cleaned df pk.
Proof.
  unfold new_records. apply filter_all, forallb_forall. intros r Hr.
  apply (cleaned_records pk df r) in Hr as [Hin Hn].
  now rewrite (fresh_keys r Hin Hn).
Qed.

Lemma first_run_skipped : skipped_records df pk t = [].
Proof.
  unfold skipped_records. apply filter_none, forallb_forall. intros r Hr.
  apply (cleaned_records pk df r) in Hr as [Hin Hn].
  now rewrite (fresh_keys r Hin Hn).
Qed.

Lemma first_run :
  load_csv_to_table db (Some df) table_name
    = Ok (db', (List.length (cleaned df pk), 0%nat)).
Proof.
  rewrite (load_keyed db t table_name pk df); auto.
  now rewrite first_run_new, first_run_skipped.
Qed.

Lemma second_run_stored (r : list value) :
  In r (cleaned df pk) -> in_store df pk t' r = true.
Proof.
  intros Hr. unfold in_store. apply existsb_exists.
  exists (py_str (at_col df pk r)). split; [|apply String.eqb_refl].
  unfold stored_strs. rewrite <- (py_str_affinity (at_col df pk r)).
  apply in_map, filter_In. split.
  - unfold key_cells, grown. cbn [rows]. rewrite map_app.
    apply in_or_app. right.
    rewrite (key_cells_appended pk (header df) (columns t) (seq t) (cleaned df pk)
               (table_keyed t table_name pk configured from_schema)).
    now apply in_map with (f := fun r0 => apply_affinity TEXT (given_key pk (header df) r0)).
  - apply (cleaned_records pk df r) in Hr as [_ Hn].
    now rewrite is_null_affinity, Hn.
Qed.

Lemma second_run :
  load_csv_to_table db' (Some df) table_name
    = Ok (db', (0%nat, List.length (cleaned df pk))).
Proof.
  assert (Hin : assoc table_name db' = Some t')
    by (apply assoc_set_table with (t := t); exact in_db).
  rewrite (load_keyed db' t' table_name pk df); auto.
  assert (Hnew : new_records df pk t' = []).
  { unfold new_records. apply filter_none, forallb_forall. intros r Hr.
    now rewrite (second_run_stored r Hr). }
  assert (Hskip : skipped_records df pk t' = cleaned df pk).
  { unfold skipped_records. apply filter_all, forallb_forall. exact second_run_stored. }
  rewrite Hnew, Hskip, grown_nothing.
  now rewrite (set_table_same _ _ _ Hin).
Qed.


End LoadTwice.


(** ** Keys are compared as strings *)

Section SevenAndSevenPointZero.

Variables (db : database) (t : table) (table_name pk : string) (df : DataFrame).
Hypothesis configured : assoc table_name PK_COL = Some pk.
Hypothesis in_db : assoc table_name db = Some t.
Hypothesis from_schema : schema_of table_name = Some (columns t).
Hypothesis has_key : has_col df pk = true.
Hypothesis known_columns : forallb (has_column t) (header df) = true.

Variable r : list value.
Hypothesis stored_seven : key_cells t pk = [VText "7"].
Hypothesis one_record : records df = [r].
Hypothesis batch_seven_point_zero : at_col df pk r = VFloat "7.0".


End SevenAndSevenPointZero.


(** ** Tables without a configured key *)

Lemma insert_row_unconstrained (t : table) (names : list string) (r : list value) :
  Forall (fun c => not_null c = false /\ unique c = false) (columns t) ->
  forallb (has_column t) names = true ->
  insert_row t names r
    = Ok {| columns := columns t;
            rows := rows t ++ [stored (columns t) names (seq t + 1) r];
            seq := seq t + 1 |}.
Proof.
  intros Hc Hn. unfold insert_row. rewrite (find_negb_none _ _ Hn).
  rewrite Forall_forall in Hc.
  rewrite find_none_all.
  - rewrite find_none_all; [reflexivity|].
    intros c Hin. unfold violates_unique. now rewrite (proj2 (Hc c Hin)).
  - intros c Hin. unfold violates_not_null. now rewrite (proj1 (Hc c Hin)).
Qed.

Lemma insert_many_unconstrained (names : list string) (batch : list (list value)) :
  forall t,
  Forall (fun c => not_null c = false /\ unique c = false) (columns t) ->
  forallb (has_column t) names = true ->
  insert_many t names batch = Ok (grown t names batch).
Proof.
  induction batch as [|r batch IH]; intros t Hc Hn.
  - simpl. now rewrite grown_nothing.
  - cbn [insert_many]. rewrite (insert_row_unconstrained t names r Hc Hn).
    cbn [bind]. rewrite IH; auto. unfold grown. cbn [columns rows seq appended].
    f_equal. f_equal.
    + now rewrite <- app_assoc.
    + cbn [List.length]. lia.
Qed.

Lemma table_for_unconstrained (df : DataFrame) :
  Forall (fun c => not_null c = false /\ unique c = false) (columns (table_for df)).
Proof.
  unfold table_for. cbn [columns]. apply Forall_forall. intros c Hc.
  apply in_map_iff in Hc as (h & <- & _). auto.
Qed.

Lemma table_for_has_header (df : DataFrame) :
  forallb (has_column (table_for df)) (header df) = true.
Proof.
  apply forallb_forall. intros h Hh. unfold has_column, column_names, table_for.
  cbn [columns]. rewrite map_map. cbn [cname]. rewrite map_id.
  apply existsb_exists. exists h. split; [exact Hh | apply String.eqb_refl].
Qed.

Section Unkeyed.

Variables (db : database) (table_name : string) (df : DataFrame).
Hypothesis not_configured : assoc table_name PK_COL = None.

(** The table the append works on: the stored one, or the one made for the
    frame. *)
Local Abbreviation target :=
  (match assoc table_name db with
   | Some t => t
   | None => table_for df
   end).


End Unkeyed.



(** * Further properties of the code *)

(** ** The offline answer *)

Lemma str_app_assoc (a b c : string) : ((a ++ b) ++ c)%string = (a ++ (b ++ c))%string.
Proof. induction a as [|x a IH]; simpl; [reflexivity | now rewrite IH]. Qed.

Lemma join_ends (sep d : string) (l : list string) :
  exists s, join sep (l ++ [d])%list = (s ++ d)%string.
Proof.
  induction l as [|x l [s IH]].
  - now exists EmptyString.
  - exists (x ++ sep ++ s)%string.
    change ((x :: l) ++ [d])%list with (x :: (l ++ [d]))%list.
    destruct (l ++ [d])%list as [|y rest] eqn:E; [now destruct l|].
    change (join sep (x :: y :: rest))
      with (x ++ sep ++ join sep (y :: rest))%string.
    rewrite IH. now rewrite !str_app_assoc.
Qed.

(** The parts of the offline answer, keyword test by keyword test. *)
Lemma offline_parts_cases (user_message : string) (context_text : option string) :
  offline_parts user_message context_text =
    (let msg := lower user_message in
     let echo := match context_text with
                 | Some (String a c) => [context_block (String a c)]
                 | _ => []
                 end in
     let topics :=
       (if wants_priority msg then [prioritisation_block] else []) ++
       (if wants_phishing msg then [phishing_block] else []) ++
       (if wants_backlog msg then [backlog_block] else []) in
     [preamble] ++ echo ++ topics ++
     (match echo ++ topics with [] => [generic_block] | _ => [] end) ++
     [disclaimer])%list.
Proof.
  unfold offline_parts. cbv zeta.
  destruct context_text as [[|a c]|]; cbn [truthy];
    destruct (wants_priority (lower user_message)),
             (wants_phishing (lower user_message)),
             (wants_backlog (lower user_message)); reflexivity.
Qed.

(** The offline answer always opens with the preamble and always ends with
    the disclaimer, whatever the question and the context. *)
Theorem offline_answer_is_framed (user_message : string) (context_text : option string) :
  (exists middle,
     offline_parts user_message context_text
       = (preamble :: middle ++ [disclaimer])%list) /\
  startswith (_offline_response user_message context_text) preamble = true /\
  (exists body,
     _offline_response user_message context_text = (body ++ disclaimer)%string).
Proof.
  assert (M : exists middle,
             offline_parts user_message context_text
               = (preamble :: middle ++ [disclaimer])%list).
  { rewrite offline_parts_cases. cbv zeta.
    match goal with
    | |- exists m, ([preamble] ++ ?e ++ ?t ++ ?g ++ [disclaimer])%list = _ =>
        exists (e ++ t ++ g)%list
    end.
    change ([preamble] ++ ?x)%list with (preamble :: x)%list.
    now rewrite <- !app_assoc. }
  split; [exact M|]. destruct M as [middle M].
  unfold _offline_response. rewrite M. split.
  - unfold startswith. cbn [join].
    destruct (middle ++ [disclaimer])%list eqn:E; [now destruct middle|].
    apply prefix_app.
  - apply (join_ends nl disclaimer (preamble :: middle)).
Qed.

(** The answer depends on the question through its lower-cased form only:
    two questions that differ in letter case get the same answer. *)
Theorem offline_answer_ignores_case (q1 q2 : string) (context_text : option string) :
  lower q1 = lower q2 ->
  _offline_response q1 context_text = _offline_response q2 context_text.
Proof.
  intros H. unfold _offline_response. rewrite !offline_parts_cases. now rewrite H.
Qed.

Lemma offline_answer_ignores_case_witness :
  _offline_response "Is PHISHING rising?" None
  = _offline_response "is phishing rising?" None.
Proof.
  exact (offline_answer_ignores_case "Is PHISHING rising?" "is phishing rising?"
                                     None eq_refl).
Defined.

Ltac not_a_part H :=
  cbn [In] in H;
  repeat (destruct H as [H|H]; [cbv in H; discriminate|]);
  contradiction.

(** Each topic block is part of the offline answer exactly when its keyword
    test holds on the lower-cased question, and the generic block exactly when
    no test holds and no context was echoed. *)
Theorem offline_blocks_follow_keywords (user_message : string)
  (context_text : option string) :
  (In prioritisation_block (offline_parts user_message context_text)
     <-> wants_priority (lower user_message) = true) /\
  (In phishing_block (offline_parts user_message context_text)
     <-> wants_phishing (lower user_message) = true) /\
  (In backlog_block (offline_parts user_message context_text)
     <-> wants_backlog (lower user_message) = true) /\
  (In generic_block (offline_parts user_message context_text)
     <-> wants_priority (lower user_message) = false /\
         wants_phishing (lower user_message) = false /\
         wants_backlog (lower user_message) = false /\
         truthy context_text = false).
Proof.
  rewrite offline_parts_cases. cbv zeta.
  destruct context_text as [[|a c]|];
    destruct (wants_priority (lower user_message)),
             (wants_phishing (lower user_message)),
             (wants_backlog (lower user_message));
    cbn [Datatypes.app truthy]; (split; [|split; [|split]]); split; intros H;
    try solve [ reflexivity
              | repeat split; (reflexivity || not_a_part H)
              | not_a_part H
              | cbn [In]; auto 10
              | discriminate H
              | destruct H as (? & ? & ? & ?); discriminate ].
Qed.

(** ** The remote call *)

(** [_openrouter_response] gives [None] exactly when no key is configured:
    with a key every outcome of the request, good or bad, becomes a text. So
    [health_check] reports the missing key when there is none and otherwise
    returns the text of the test call; its fallback "Key missing
    (unexpected)." is never produced by that branch. *)
Theorem response_is_none_only_without_key (api_key : option string)
  (post : request -> http_outcome) :
  (forall user_message context_text,
     _openrouter_response api_key post user_message context_text = None
       <-> truthy api_key = false) /\
  (forall env_path,
     truthy api_key = false ->
     health_check env_path api_key post
       = ("OPENROUTER_API_KEY is missing. Looked for .env at: " ++ env_path)%string) /\
  (forall env_path,
     truthy api_key = true ->
     _openrouter_response api_key post "Say 'OK' only." (Some "Context: test")
       = Some (health_check env_path api_key post)).
Proof.
  assert (K : forall user_message context_text,
             _openrouter_response api_key post user_message context_text = None
               <-> truthy api_key = false).
  { intros user_message context_text. unfold _openrouter_response.
    destruct api_key as [[|a k]|]; cbn [truthy negb]; try tauto.
    destruct (post _) as [e|status text [e|data shown]];
      [ | destruct (negb (status =? 200)%Z) .. ];
      try destruct (read_choices data shown);
      split; intros H; discriminate. }
  split; [exact K|]. split.
  - intros env_path H. unfold health_check. now rewrite H.
  - intros env_path H. unfold health_check. rewrite H. cbn [negb].
    destruct (_openrouter_response api_key post "Say 'OK' only."
                                   (Some "Context: test")) eqn:E; [reflexivity|].
    apply K in E. congruence.
Qed.

Lemma lstrip_all_space (s : string) : all_space s = true -> lstrip s = EmptyString.
Proof.
  induction s as [|c s IH]; simpl; [reflexivity|].
  intros H. apply andb_prop in H as [Hc Hs]. rewrite Hc. auto.
Qed.

Section Content.

Variables (key : string) (post : request -> http_outcome).
Variables (user_message : string) (context_text : option string).
Hypothesis key_set : truthy (Some key) = true.
Variables (text shown content : string).
Hypothesis replied :
  post (build_request key user_message context_text)
    = Response 200 text (JsonData (chat_reply content) shown).

(** A reply whose content is the empty string is answered by the notice
    "AI API returned an empty message."; a reply whose content is not empty
    but all white space is answered by the empty string: the notice is not
    used after stripping. *)
Theorem blank_content_gives_empty_answer :
  (content = EmptyString ->
     ask_cyber_assistant (Some key) post user_message context_text
       = "AI API returned an empty message.") /\
  (content <> EmptyString -> all_space content = true ->
     ask_cyber_assistant (Some key) post user_message context_text
       = EmptyString).
Proof.
  split.
  - intros ->. apply ask_plain_answer; [|reflexivity].
    now rewrite (response_parsed key post user_message context_text key_set
                   text shown _ replied).
  - intros Hne Hsp. apply ask_plain_answer; [|reflexivity].
    rewrite (response_parsed key post user_message context_text key_set
               text shown _ replied).
    rewrite (read_choices_reply content shown Hne).
    unfold strip. now rewrite (lstrip_all_space content Hsp).
Qed.

End Content.

Lemma blank_content_gives_empty_answer_witness :
  ask_cyber_assistant (Some "sk-or-1")
    (fun _ => Response 200 "..." (JsonData (chat_reply "   ") "..."))
    "hello" None
  = EmptyString.
Proof.
  refine (proj2 (blank_content_gives_empty_answer
                   "sk-or-1"
                   (fun _ => Response 200 "..." (JsonData (chat_reply "   ") "..."))
                   "hello" None eq_refl "..." "..." "   " eq_refl) _ eq_refl).
  discriminate.
Defined.

(** ** The schema *)

Lemma assoc_set_table_absent (db : database) (name : string) (t : table) :
  assoc name db = None -> assoc name (set_table db name t) = Some t.
Proof.
  induction db as [|[n old] db IH]; simpl.
  - now rewrite String.eqb_refl.
  - destruct (String.eqb name n) eqn:E; [discriminate|].
    intros H. simpl. rewrite E. auto.
Qed.

(** One [CREATE TABLE IF NOT EXISTS] keeps every table that is there. *)
Lemma create_table_keeps (db : database) (name other : string)
  (cols : list column) (t : table) :
  assoc other db = Some t ->
  assoc other (create_table_if_not_exists db name cols) = Some t.
Proof.
  intros H. unfold create_table_if_not_exists.
  destruct (assoc name db) eqn:E; [exact H|].
  rewrite assoc_set_table_other; [exact H|]. intros ->. congruence.
Qed.

(** It makes the table when it is missing, empty and with the given
    columns. *)
Lemma create_table_makes (db : database) (name : string) (cols : list column) :
  assoc name db = None ->
  assoc name (create_table_if_not_exists db name cols)
    = Some {| columns := cols; rows := []; seq := 0 |}.
Proof.
  intros H. unfold create_table_if_not_exists. rewrite H.
  now apply assoc_set_table_absent.
Qed.

(** It leaves a missing table of another name missing. *)
Lemma create_table_other_absent (db : database) (name other : string)
  (cols : list column) :
  other <> name -> assoc other db = None ->
  assoc other (create_table_if_not_exists db name cols) = None.
Proof.
  intros Hne H. unfold create_table_if_not_exists.
  destruct (assoc name db); [exact H|].
  now rewrite assoc_set_table_other.
Qed.

Lemma create_table_present (db : database) (name : string) (cols : list column) :
  exists t, assoc name (create_table_if_not_exists db name cols) = Some t.
Proof.
  destruct (assoc name db) as [t|] eqn:E.
  - exists t. now apply create_table_keeps.
  - eexists. now apply create_table_makes.
Qed.

Lemma create_table_noop (db : database) (name : string) (cols : list column)
  (t : table) :
  assoc name db = Some t -> create_table_if_not_exists db name cols = db.
Proof. intros H. unfold create_table_if_not_exists. now rewrite H. Qed.

Lemma create_tables_keeps (db : database) (name : string) (t : table) :
  assoc name db = Some t -> assoc name (create_tables db) = Some t.
Proof.
  intros H. unfold create_tables. now do 4 apply create_table_keeps.
Qed.

Lemma create_tables_makes (db : database) (name : string) (cols : list column) :
  schema_of name = Some cols -> assoc name db = None ->
  assoc name (create_tables db)
    = Some {| columns := cols; rows := []; seq := 0 |}.
Proof.
  intros Hs Hnone. unfold schema_of in Hs. cbn [assoc] in Hs.
  unfold create_tables.
  destruct (String.eqb_spec name "users") as [->|_].
  { injection Hs as <-. do 3 apply create_table_keeps.
    now apply create_table_makes. }
  destruct (String.eqb_spec name "cyber_incidents") as [->|_].
  { injection Hs as <-. do 2 apply create_table_keeps.
    apply create_table_makes.
    apply create_table_other_absent; [discriminate | exact Hnone]. }
  destruct (String.eqb_spec name "datasets_metadata") as [->|_].
  { injection Hs as <-. apply create_table_keeps.
    apply create_table_makes.
    do 2 (apply create_table_other_absent; [discriminate|]). exact Hnone. }
  destruct (String.eqb_spec name "it_tickets") as [->|_]; [|discriminate].
  injection Hs as <-. apply create_table_makes.
  do 3 (apply create_table_other_absent; [discriminate|]). exact Hnone.
Qed.

(** [create_tables] never drops or alters a table that exists, rows
    included, and gives every table of the schema that is missing its columns
    and no rows. *)
Theorem create_tables_keeps_and_completes (db : database) :
  (forall name t, assoc name db = Some t ->
                  assoc name (create_tables db) = Some t) /\
  (forall name cols, schema_of name = Some cols -> assoc name db = None ->
     assoc name (create_tables db)
       = Some {| columns := cols; rows := []; seq := 0 |}).
Proof.
  split.
  - intros name t. apply create_tables_keeps.
  - intros name cols. apply create_tables_makes.
Qed.

Lemma create_tables_keeps_and_completes_witness :
  assoc "it_tickets" (create_tables store_with_incidents)
    = assoc "it_tickets" store_with_incidents.
Proof.
  destruct (assoc "it_tickets" store_with_incidents) as [t|] eqn:E.
  - exact (proj1 (create_tables_keeps_and_completes store_with_incidents)
                 "it_tickets" t E).
  - vm_compute in E. discriminate.
Defined.

(** [create_tables] is idempotent: a second run changes nothing. *)
Theorem create_tables_idempotent (db : database) :
  create_tables (create_tables db) = create_tables db.
Proof.
  assert (P : forall name cols, schema_of name = Some cols ->
                exists t, assoc name (create_tables db) = Some t).
  { intros name cols Hs. destruct (assoc name db) as [t|] eqn:E.
    - exists t. now apply create_tables_keeps.
    - eexists. now apply create_tables_makes with (cols := cols). }
  destruct (P "users" _ eq_refl) as [t1 H1].
  destruct (P "cyber_incidents" _ eq_refl) as [t2 H2].
  destruct (P "datasets_metadata" _ eq_refl) as [t3 H3].
  destruct (P "it_tickets" _ eq_refl) as [t4 H4].
  remember (create_tables db) as db1 eqn:E. unfold create_tables.
  rewrite (create_table_noop db1 "users" _ t1 H1).
  rewrite (create_table_noop db1 "cyber_incidents" _ t2 H2).
  rewrite (create_table_noop db1 "datasets_metadata" _ t3 H3).
  apply (create_table_noop db1 "it_tickets" _ t4 H4).
Qed.

(** ** Keys, rows and the store invariant *)

Lemma entity_configured (e : entity) :
  assoc (entity_table e) PK_COL = Some (entity_key e).
Proof. now destruct e. Qed.

Lemma entity_schema (e : entity) :
  schema_of (entity_table e) = Some (entity_columns e).
Proof. now destruct e. Qed.

Lemma entity_keyed (e : entity) : keyed (entity_key e) (entity_columns e).
Proof. exact (pk_col_keyed _ _ _ (entity_configured e) (entity_schema e)). Qed.

Lemma entity_field_not_key (e : entity) : entity_field e <> entity_key e.
Proof. destruct e; discriminate. Qed.

Lemma text_affinity (k : value) :
  is_null k = false -> apply_affinity TEXT k = VText (py_str k).
Proof. destruct k; simpl; intros H; try reflexivity; discriminate. Qed.

Lemma text_is_its_str (x : value) : is_text x = true -> x = VText (py_str x).
Proof. destruct x; simpl; intros H; try reflexivity; discriminate. Qed.

Lemma text_not_null (x : value) : is_text x = true -> is_null x = false.
Proof. destruct x; simpl; intros H; try reflexivity; discriminate. Qed.

Lemma names_of_built_cells (cols : list column) (names : list string)
  (params : list value) :
  map fst (build_cells cols names params) = map cname cols.
Proof. unfold build_cells. rewrite map_map. reflexivity. Qed.

Lemma names_of_set_cell (col : string) (v : value) (cs : list (string * value)) :
  map fst (set_cell col v cs) = map fst cs.
Proof.
  induction cs as [|[k old] cs IH]; simpl; [reflexivity|].
  destruct (String.eqb col k); simpl; [reflexivity | now rewrite IH].
Qed.

Lemma set_cell_other (col c : string) (v : value) (cs : list (string * value)) :
  c <> col -> cell_of c (set_cell col v cs) = cell_of c cs.
Proof.
  intros Hne. unfold cell_of. induction cs as [|[k old] cs IH]; simpl; [reflexivity|].
  destruct (String.eqb_spec col k) as [->|Hk]; simpl.
  - apply String.eqb_neq in Hne. now rewrite Hne.
  - destruct (String.eqb c k); [reflexivity | exact IH].
Qed.

Lemma set_cell_same (col : string) (v : value) (cs : list (string * value)) :
  In col (map fst cs) -> cell_of col (set_cell col v cs) = v.
Proof.
  unfold cell_of. induction cs as [|[k old] cs IH]; simpl; [contradiction|].
  intros H. destruct (String.eqb_spec col k) as [->|Hk]; simpl.
  - now rewrite String.eqb_refl.
  - apply String.eqb_neq in Hk. rewrite Hk. apply IH.
    destruct H as [H|H]; [|exact H]. apply String.eqb_neq in Hk. congruence.
Qed.

Lemma NoDup_snoc {A : Type} (l : list A) (x : A) :
  NoDup l -> ~ In x l -> NoDup (l ++ [x]).
Proof.
  induction l as [|y l IH]; simpl; intros Hnd Hx.
  - constructor; [tauto | constructor].
  - apply NoDup_cons_iff in Hnd as [Hy Hnd]. constructor.
    + rewrite in_app_iff. simpl. intros [H|[H|[]]]; [tauto|]. apply Hx. now left.
    + apply IH; [exact Hnd | tauto].
Qed.

Section KeyedTable.

Variables (pk : string) (t : table).
Hypothesis is_keyed : keyed pk (columns t).

(** What a [WHERE pk = ?] selects in a keyed table. *)
Lemma matches_keyed (key : value) (r : row) :
  matches t pk key r = true <->
  is_null key = false /\ cell_of pk (cells r) = apply_affinity TEXT key.
Proof.
  unfold matches, find_column. destruct is_keyed as (rest & -> & _).
  cbn [find cname ctype]. rewrite String.eqb_refl.
  rewrite andb_true_iff, negb_true_iff, is_null_affinity, value_eqb_eq. tauto.
Qed.

Lemma exists_keyed (key : value) :
  existsb (matches t pk key) (rows t) = true <->
  is_null key = false /\ In (apply_affinity TEXT key) (key_cells t pk).
Proof.
  rewrite existsb_exists. unfold key_cells. rewrite in_map_iff. split.
  - intros (r & Hr & Hm). apply matches_keyed in Hm as [Hn Hc]. split; [exact Hn|].
    now exists r.
  - intros (Hn & r & Hc & Hr). exists r. split; [exact Hr|].
    now apply matches_keyed.
Qed.

(** What a successful INSERT into a keyed table tells: the key was given,
    its text was not stored, and the row went to the end. *)
Lemma insert_row_inv (names : list string) (r : list value) (t' : table) :
  insert_row t names r = Ok t' ->
  t' = {| columns := columns t;
          rows := rows t ++ [stored (columns t) names (seq t + 1) r];
          seq := seq t + 1 |} /\
  is_null (given_key pk names r) = false /\
  ~ In (apply_affinity TEXT (given_key pk names r)) (key_cells t pk).
Proof.
  unfold insert_row. destruct (find _ names); [discriminate|].
  pose proof (key_of_stored pk names (columns t) (seq t + 1) r is_keyed) as Hcell.
  unfold stored in Hcell. cbn [cells] in Hcell.
  destruct is_keyed as (rest & E & _).
  destruct (find (violates_not_null _) (columns t)) eqn:F1; [discriminate|].
  destruct (find (violates_unique _ _) (columns t)) eqn:F2; [discriminate|].
  intros H. injection H as <-. split; [reflexivity|].
  rewrite E in F1, F2. cbn [find] in F1, F2.
  destruct (violates_not_null _ _) eqn:V1 in F1; [discriminate|].
  destruct (violates_unique _ _ _) eqn:V2 in F2; [discriminate|].
  unfold violates_not_null in V1. cbn [not_null cname andb] in V1.
  rewrite <- E in V1. rewrite Hcell, is_null_affinity in V1.
  split; [exact V1|].
  unfold violates_unique in V2. cbn [unique cname andb] in V2.
  rewrite <- E in V2. rewrite Hcell, is_null_affinity, V1 in V2. cbn [negb andb] in V2.
  intros Hin. unfold key_cells in Hin. apply in_map_iff in Hin as (x & Hx & Hin).
  assert (Ex : existsb (fun r0 => value_eqb (cell_of pk (cells r0))
                                   (apply_affinity TEXT (given_key pk names r)))
                       (rows t) = true).
  { apply existsb_exists. exists x. split; [exact Hin|]. now apply value_eqb_eq. }
  congruence.
Qed.

End KeyedTable.

Section Sound.

Variables (cols : list column) (pk : string).
Hypothesis is_keyed : keyed pk cols.

Lemma sound_keyed (t : table) : sound cols pk t -> keyed pk (columns t).
Proof. intros (-> & _). exact is_keyed. Qed.

Lemma insert_row_sound (t t' : table) (names : list string) (r : list value) :
  sound cols pk t -> insert_row t names r = Ok t' -> sound cols pk t'.
Proof.
  intros S H. pose proof (sound_keyed t S) as K.
  destruct (insert_row_inv pk t K names r t' H) as (-> & Hn & Hnew).
  destruct S as (Hc & Hnd & Htx & Hsh).
  unfold sound, key_cells in *. cbn [columns rows].
  rewrite map_app. cbn [map]. rewrite (key_of_stored pk names (columns t) _ r K).
  split; [exact Hc|]. split; [now apply NoDup_snoc|]. split.
  - apply Forall_app. split; [exact Htx|]. constructor; [|constructor].
    now rewrite (text_affinity _ Hn).
  - apply Forall_app. split; [exact Hsh|]. constructor; [|constructor].
    unfold stored. cbn [cells]. rewrite names_of_built_cells. now rewrite Hc.
Qed.

Lemma insert_many_sound (names : list string) (batch : list (list value)) :
  forall t t', sound cols pk t -> insert_many t names batch = Ok t' ->
               sound cols pk t'.
Proof.
  induction batch as [|r batch IH]; intros t t' S H.
  - simpl in H. now injection H as <-.
  - cbn [insert_many] in H.
    destruct (insert_row t names r) as [t1|e] eqn:E; [|discriminate].
    cbn [bind] in H. apply (IH t1 t'); [|exact H].
    now apply (insert_row_sound t t1 names r).
Qed.

End Sound.

(** ** Update and delete, further *)

Lemma matches_same_columns (t t' : table) (col : string) (key : value) (r : row) :
  columns t' = columns t -> matches t' col key r = matches t col key r.
Proof. intros H. unfold matches, find_column. now rewrite H. Qed.

Lemma existsb_after_filter {A : Type} (f : A -> bool) (l : list A) :
  existsb f (filter (fun x => negb (f x)) l) = false.
Proof.
  induction l as [|x l IH]; simpl; [reflexivity|].
  destruct (f x) eqn:E; simpl; [exact IH | now rewrite E].
Qed.

Lemma filter_after_filter {A : Type} (f : A -> bool) (l : list A) :
  filter f (filter f l) = filter f l.
Proof.
  induction l as [|x l IH]; simpl; [reflexivity|].
  destruct (f x) eqn:E; simpl; [now rewrite E, IH | exact IH].
Qed.

Lemma filter_hits_nothing {A : Type} (f : A -> bool) (l : list A) :
  filter f (filter (fun x => negb (f x)) l) = [].
Proof.
  induction l as [|x l IH]; simpl; [reflexivity|].
  destruct (f x) eqn:E; simpl; [exact IH | now rewrite E].
Qed.

Lemma existsb_same {A : Type} (f g : A -> bool) (l : list A) :
  (forall x, f x = g x) -> existsb f l = existsb g l.
Proof.
  intros H. induction l as [|x l IH]; simpl; [reflexivity|]. now rewrite H, IH.
Qed.

Section DeleteTwice.

Variables (e : entity) (db : database) (t : table) (key : value).
Hypothesis in_store : assoc (entity_table e) db = Some t.
Hypothesis from_schema : columns t = entity_columns e.


End DeleteTwice.


Lemma existsb_of_map {A B : Type} (f : B -> bool) (g : A -> B) (l : list A) :
  existsb f (map g l) = existsb (fun x => f (g x)) l.
Proof. induction l as [|x l IH]; simpl; [reflexivity | now rewrite IH]. Qed.

Section UpdateField.

Variables (e : entity) (db : database) (t : table) (key new_value : value).
Hypothesis in_store : assoc (entity_table e) db = Some t.
Hypothesis from_schema : columns t = entity_columns e.

Local Abbreviation touched :=
  (fun r : row =>
     if matches t (entity_key e) key r
     then {| rowid := rowid r;
             cells := set_cell (entity_field e) (apply_affinity TEXT new_value)
                               (cells r) |}
     else r).

Local Abbreviation updated :=
  {| columns := columns t; rows := map touched (rows t); seq := seq t |}.

Lemma update_returns :
  exists outcome,
    entity_update e db key new_value
      = Ok (set_table db (entity_table e) updated, outcome).
Proof.
  rewrite (entity_update_eq e db t key new_value in_store from_schema). cbv zeta.
  destruct (_ =? 0)%nat; eexists; reflexivity.
Qed.

Lemma touched_cell (c : string) (r : row) :
  c <> entity_field e -> cell_of c (cells (touched r)) = cell_of c (cells r).
Proof.
  intros Hc. cbv beta. destruct (matches t (entity_key e) key r); [|reflexivity].
  cbn [cells]. now apply set_cell_other.
Qed.

Lemma touched_key (r : row) :
  cell_of (entity_key e) (cells (touched r)) = cell_of (entity_key e) (cells r).
Proof.
  apply touched_cell. intros H. now apply (entity_field_not_key e).
Qed.


Hypothesis is_sound : sound (entity_columns e) (entity_key e) t.

Lemma field_in_columns : In (entity_field e) (map cname (entity_columns e)).
Proof. destruct e; cbn; tauto. Qed.


End UpdateField.


Lemma store_with_incidents_sound :
  sound cyber_incidents_columns "incident_id"
        (table_of store_with_incidents "cyber_incidents").
Proof.
  unfold sound. vm_compute. repeat split; repeat constructor;
    simpl; intuition discriminate.
Qed.


(** ** The creates, further *)

Lemma insert_row_raises_integrity (t : table) (names : list string)
  (r : list value) (e : exn) :
  forallb (has_column t) names = true ->
  insert_row t names r = Raise e -> exists c, e = IntegrityError c.
Proof.
  intros Hn. unfold insert_row. rewrite (find_negb_none _ _ Hn).
  destruct (find (violates_not_null _) (columns t)) as [c|];
    [intros [= <-]; now eexists|].
  destruct (find (violates_unique _ _) (columns t)) as [c|];
    [intros [= <-]; now eexists | discriminate].
Qed.

Section CreateKeyed.

Variables (db : database) (t : table) (name pk : string).
Variables (names : list string) (params : list value) (created taken : string).
Hypothesis in_db : assoc name db = Some t.
Hypothesis is_keyed : keyed pk (columns t).
Hypothesis known : forallb (has_column t) names = true.

Local Abbreviation key := (given_key pk names params).
Local Abbreviation added :=
  {| columns := columns t;
     rows := rows t ++ [stored (columns t) names (seq t + 1) params];
     seq := seq t + 1 |}.

(** A create on a keyed table always returns: it succeeds and appends the
    row exactly when the key is given and not stored yet, and otherwise
    leaves the store as it was. *)
Lemma create_outcome :
  (is_null key = false /\ ~ In (apply_affinity TEXT key) (key_cells t pk) /\
   create db name names params created taken
     = Ok (set_table db name added, (true, created))) \/
  ((is_null key = true \/ In (apply_affinity TEXT key) (key_cells t pk)) /\
   create db name names params created taken = Ok (db, (false, taken))).
Proof.
  unfold create, execute_insert, get_table. rewrite in_db. cbn [bind].
  destruct (insert_row t names params) as [t'|e] eqn:E.
  - left. destruct (insert_row_inv pk t is_keyed names params t' E) as (-> & Hn & Hnew).
    now cbn [bind].
  - right. destruct (insert_row_raises_integrity t names params e known E) as [c ->].
    cbn [bind]. split; [|reflexivity].
    destruct (is_null key) eqn:Hn; [now left|]. right.
    destruct (existsb (value_eqb (apply_affinity TEXT key)) (key_cells t pk)) eqn:Ex.
    + now apply existsb_value_In.
    + apply existsb_value_not_In in Ex.
      rewrite (insert_row_keyed pk names t params is_keyed known Hn Ex) in E.
      discriminate.
Qed.

End CreateKeyed.

Section EntityCreate.

Variables (e : entity) (db : database) (t : table).
Variables (names : list string).
Hypothesis in_store : assoc (entity_table e) db = Some t.
Hypothesis is_sound : sound (entity_columns e) (entity_key e) t.
Hypothesis known : forallb (has_column t) names = true.

Lemma sound_columns : columns t = entity_columns e.
Proof. now destruct is_sound. Qed.

Lemma sound_table_keyed : keyed (entity_key e) (columns t).
Proof. rewrite sound_columns. apply entity_keyed. Qed.

Lemma exists_by_cells (d : database) (u : table) (k : value) :
  assoc (entity_table e) d = Some u -> columns u = entity_columns e ->
  (entity_exists e d k = Ok true <->
   is_null k = false /\ In (apply_affinity TEXT k) (key_cells u (entity_key e))).
Proof.
  intros Hd Hc. rewrite (entity_exists_eq e d u k Hd Hc).
  rewrite <- (exists_keyed (entity_key e) u);
    [|rewrite Hc; apply entity_keyed].
  split; [intros [= H]; exact H | intros H; now rewrite H].
Qed.

Lemma exists_false_by_cells (k : value) :
  is_null k = false ->
  (entity_exists e db k = Ok false <->
   ~ In (apply_affinity TEXT k) (key_cells t (entity_key e))).
Proof.
  intros Hn. rewrite (entity_exists_eq e db t k in_store sound_columns).
  pose proof (exists_keyed (entity_key e) t sound_table_keyed k) as X.
  destruct (existsb _ (rows t)); split; intros H.
  - discriminate.
  - exfalso. apply H. now apply X.
  - intros Hin. assert (false = true) by (apply X; tauto). discriminate.
  - reflexivity.
Qed.

(** A create of an entity on its sound table: the outcome, the invariant
    and what the existence test and a second create say afterwards. *)
Lemma entity_create_outcome (params : list value) (created taken : string)
  (id : value) :
  given_key (entity_key e) names params = id ->
  exists (db' : database) (ok : bool) (t' : table),
    create db (entity_table e) names params created taken
      = Ok (db', (ok, if ok then created else taken)) /\
    (ok = true <-> is_null id = false /\ entity_exists e db id = Ok false) /\
    (ok = false -> db' = db) /\
    assoc (entity_table e) db' = Some t' /\
    sound (entity_columns e) (entity_key e) t' /\
    (ok = true -> List.length (rows t') = S (List.length (rows t))) /\
    (is_null id = false -> entity_exists e db' id = Ok true) /\
    (forall params' created' taken',
       given_key (entity_key e) names params' = id ->
       create db' (entity_table e) names params' created' taken'
         = Ok (db', (false, taken'))).
Proof.
  intros <-.
  destruct (create_outcome db t (entity_table e) (entity_key e) names params
              created taken in_store sound_table_keyed known)
    as [(Hn & Hnew & C)|(Hbad & C)].
  - set (t' := {| columns := columns t;
                  rows := rows t ++ [stored (columns t) names (seq t + 1) params];
                  seq := seq t + 1 |}) in *.
    assert (Hin : assoc (entity_table e) (set_table db (entity_table e) t') = Some t')
      by (now apply assoc_set_table with (t := t)).
    assert (Hins : insert_row t names params = Ok t')
      by (now apply insert_row_keyed with (pk := entity_key e);
          [apply sound_table_keyed | | |]).
    assert (S' : sound (entity_columns e) (entity_key e) t')
      by (apply (insert_row_sound _ _ (entity_keyed e) t t' names params);
          assumption).
    assert (Hlast : In (apply_affinity TEXT (given_key (entity_key e) names params)) (key_cells t' (entity_key e))).
    { unfold key_cells, t'. cbn [rows]. rewrite map_app, in_app_iff. right.
      cbn [map]. rewrite (key_of_stored _ _ _ _ _ sound_table_keyed). now left. }
    exists (set_table db (entity_table e) t'), true, t'.
    split; [exact C|]. split; [|split; [discriminate|split; [exact Hin|split; [exact S'|]]]].
    + split; [intros _|reflexivity]. split; [exact Hn|].
      now apply exists_false_by_cells.
    + split; [intros _; unfold t'; cbn [rows]; rewrite length_app; simpl; lia|].
      split.
      * intros _. apply (exists_by_cells _ t' _ Hin); [apply sound_columns|].
        now split.
      * intros params' created' taken' Hid.
        destruct (create_outcome _ t' (entity_table e) (entity_key e) names
                    params' created' taken' Hin sound_table_keyed known)
          as [(_ & Hnew' & _)|(_ & C')]; [|exact C'].
        exfalso. apply Hnew'. rewrite Hid. exact Hlast.
  - exists db, false, t.
    split; [exact C|]. split; [|split; [reflexivity|split; [exact in_store|split; [exact is_sound|]]]].
    + split; [discriminate|]. intros [Hn Hex]. exfalso.
      apply (exists_false_by_cells _ Hn) in Hex.
      destruct Hbad as [Hb|Hb]; [congruence | contradiction].
    + split; [discriminate|]. split.
      * intros Hn. apply (exists_by_cells _ t _ in_store sound_columns).
        split; [exact Hn|]. destruct Hbad as [Hb|Hb]; [congruence | exact Hb].
      * intros params' created' taken' Hid.
        destruct (create_outcome _ t (entity_table e) (entity_key e) names
                    params' created' taken' in_store sound_table_keyed known)
          as [(Hn' & Hnew' & _)|(_ & C')]; [|exact C'].
        exfalso. rewrite Hid in Hn', Hnew'.
        destruct Hbad as [Hb|Hb]; [congruence | contradiction].
Qed.

End EntityCreate.

Lemma known_names (t : table) (cols : list column) (names : list string) :
  columns t = cols ->
  forallb (fun n => existsb (String.eqb n) (map cname cols)) names = true ->
  forallb (has_column t) names = true.
Proof. intros <- H. exact H. Qed.

Section CreateIncident.

Variables (db : database) (t : table).
Hypothesis in_store : assoc "cyber_incidents" db = Some t.
Hypothesis is_sound : sound cyber_incidents_columns "incident_id" t.
Variables (incident_id incident_type severity status reported_at resolved_at
           assigned_to description : value).


End CreateIncident.

Section CreateDataset.

Variables (db : database) (t : table).
Hypothesis in_store : assoc "datasets_metadata" db = Some t.
Hypothesis is_sound : sound datasets_metadata_columns "dataset_name" t.
Variables (dataset_name owner source_system size_mb row_count created_at : value).


End CreateDataset.

Section CreateTicket.

Variables (db : database) (t : table).
Hypothesis in_store : assoc "it_tickets" db = Some t.
Hypothesis is_sound : sound it_tickets_columns "ticket_id" t.
Variables (ticket_id category priority status opened_at closed_at assigned_to : value).


End CreateTicket.


Lemma empty_table_sound (cols : list column) (pk : string) :
  sound cols pk {| columns := cols; rows := []; seq := 0 |}.
Proof. unfold sound, key_cells. simpl. repeat split; constructor. Qed.



(** ** Users *)

Lemma find_none_existsb {A : Type} (f : A -> bool) (l : list A) :
  find f l = None <-> existsb f l = false.
Proof.
  induction l as [|x l IH]; simpl; [tauto|].
  destruct (f x); simpl; [split; discriminate | exact IH].
Qed.

Lemma find_last {A : Type} (f : A -> bool) (l : list A) (x : A) :
  find f l = None -> f x = true -> find f (l ++ [x]) = Some x.
Proof.
  induction l as [|y l IH]; simpl; intros Hl Hx.
  - now rewrite Hx.
  - destruct (f y); [discriminate | auto].
Qed.

Section InsertUser.

Variables (db : database) (t : table).
Hypothesis in_store : assoc "users" db = Some t.
Hypothesis from_schema : columns t = users_columns.
Variables (username password_hash role : value).

Local Abbreviation taken :=
  (existsb (fun r => value_eqb (cell_of "username" (cells r))
                               (apply_affinity TEXT username)) (rows t)).

Lemma insert_user_row :
  insert_row t ["username"; "password_hash"; "role"]
             [username; password_hash; role] =
    if is_null username then Raise (IntegrityError (NotNull "username"))
    else if is_null password_hash then Raise (IntegrityError (NotNull "password_hash"))
    else if is_null role then Raise (IntegrityError (NotNull "role"))
    else if taken then Raise (IntegrityError (Unique "username"))
    else Ok {| columns := columns t;
               rows := rows t ++
                 [ {| rowid := seq t + 1;
                      cells := [ ("username", apply_affinity TEXT username);
                                 ("password_hash", apply_affinity TEXT password_hash);
                                 ("role", apply_affinity TEXT role) ] |} ];
               seq := seq t + 1 |}.
Proof.
  unfold insert_row, has_column, column_names. rewrite from_schema.
  destruct username, password_hash, role; cbn; try reflexivity;
    match goal with
    | |- context [existsb ?f ?l] => destruct (existsb f l)
    end; reflexivity.
Qed.

Lemma user_matches (r : row) :
  is_null username = false ->
  matches t "username" username r
    = value_eqb (cell_of "username" (cells r)) (apply_affinity TEXT username).
Proof.
  intros Hn. unfold matches, find_column. rewrite from_schema. cbn [find cname ctype users_columns].
  rewrite String.eqb_refl. now rewrite is_null_affinity, Hn.
Qed.

Lemma user_lookup_none :
  is_null username = false ->
  (get_user_by_username db username = Ok None <-> taken = false).
Proof.
  intros Hn. unfold get_user_by_username, get_table. rewrite in_store. cbn [bind].
  unfold has_column, column_names. rewrite from_schema. cbn [map existsb cname users_columns].
  rewrite String.eqb_refl. cbn [orb].
  rewrite <- (existsb_same _ _ (rows t) (fun r => user_matches r Hn)).
  rewrite <- find_none_existsb.
  split; [intros [= H]; exact H | intros H; now rewrite H].
Qed.


End InsertUser.


(** ** What no operation of [crud.py] touches *)

Lemma create_store (db db' : database) (name : string) (names : list string)
  (params : list value) (created taken : string) (p : bool * string) :
  create db name names params created taken = Ok (db', p) ->
  db' = db \/ exists t', db' = set_table db name t'.
Proof.
  unfold create, execute_insert.
  destruct (get_table db name) as [t|e]; cbn [bind].
  - destruct (insert_row t names params) as [t'|e]; cbn [bind].
    + intros [= <- _]. right. now exists t'.
    + destruct e; intros [= <- _] || discriminate. now left.
  - destruct e; intros [= <- _] || discriminate. now left.
Qed.

Lemma update_by_key_store (db db' : database) (name set_col where_col : string)
  (v k : value) (nf up : string) (p : bool * string) :
  update_by_key db name set_col v where_col k nf up = Ok (db', p) ->
  exists t', db' = set_table db name t'.
Proof.
  unfold update_by_key. destruct (get_table db name) as [t|e]; [|discriminate].
  cbn [bind]. destruct (update_where t set_col v where_col k) as [[t' n]|e];
    [|discriminate].
  cbn [bind]. destruct (n =? 0)%nat; intros [= <- _]; now exists t'.
Qed.

Lemma delete_by_key_store (db db' : database) (name where_col : string)
  (k : value) (nf del : string) (p : bool * string) :
  delete_by_key db name where_col k nf del = Ok (db', p) ->
  exists t', db' = set_table db name t'.
Proof.
  unfold delete_by_key. destruct (get_table db name) as [t|e]; [|discriminate].
  cbn [bind]. destruct (delete_where t where_col k) as [[t' n]|e];
    [|discriminate].
  cbn [bind]. destruct (n =? 0)%nat; intros [= <- _]; now exists t'.
Qed.

Lemma other_after_create (db db' : database) (name other : string) :
  other <> name ->
  db' = db \/ (exists t', db' = set_table db name t') ->
  assoc other db' = assoc other db.
Proof.
  intros Hne [->|[t' ->]]; [reflexivity | now apply assoc_set_table_other].
Qed.

(** Every create, update and delete that returns leaves every table other
    than its own as it was. *)
Theorem crud_leaves_other_tables (db db' : database) (other : string)
  (outcome : bool * string) :
  (forall e key new_value,
     other <> entity_table e ->
     entity_update e db key new_value = Ok (db', outcome) ->
     assoc other db' = assoc other db) /\
  (forall e key,
     other <> entity_table e ->
     entity_delete e db key = Ok (db', outcome) ->
     assoc other db' = assoc other db) /\
  (forall u p r,
     other <> "users" ->
     insert_user db u p r = Ok (db', outcome) ->
     assoc other db' = assoc other db) /\
  (forall i a b c d e f g,
     other <> "cyber_incidents" ->
     create_incident db i a b c d e f g = Ok (db', outcome) ->
     assoc other db' = assoc other db) /\
  (forall n a b c d e,
     other <> "datasets_metadata" ->
     create_dataset db n a b c d e = Ok (db', outcome) ->
     assoc other db' = assoc other db) /\
  (forall i a b c d e f,
     other <> "it_tickets" ->
     create_ticket db i a b c d e f = Ok (db', outcome) ->
     assoc other db' = assoc other db).
Proof.
  repeat split.
  - intros e key v Hne H.
    assert (S : exists t', db' = set_table db (entity_table e) t')
      by (destruct e; exact (update_by_key_store _ _ _ _ _ _ _ _ _ _ H)).
    destruct S as [t' ->]. now apply assoc_set_table_other.
  - intros e key Hne H.
    assert (S : exists t', db' = set_table db (entity_table e) t')
      by (destruct e; exact (delete_by_key_store _ _ _ _ _ _ _ _ H)).
    destruct S as [t' ->]. now apply assoc_set_table_other.
  - intros u p r Hne H. apply (other_after_create db db' "users"); [exact Hne|].
    exact (create_store _ _ _ _ _ _ _ _ H).
  - intros i a b c d e f g Hne H.
    apply (other_after_create db db' "cyber_incidents"); [exact Hne|].
    exact (create_store _ _ _ _ _ _ _ _ H).
  - intros n a b c d e Hne H.
    apply (other_after_create db db' "datasets_metadata"); [exact Hne|].
    exact (create_store _ _ _ _ _ _ _ _ H).
  - intros i a b c d e f Hne H.
    apply (other_after_create db db' "it_tickets"); [exact Hne|].
    exact (create_store _ _ _ _ _ _ _ _ H).
Qed.

Lemma crud_leaves_other_tables_witness :
  assoc "users"
        (store_after store_with_incidents
           (delete_incident store_with_incidents (VText "INC-1")))
  = assoc "users" store_with_incidents.
Proof.
  refine (proj1 (proj2 (crud_leaves_other_tables
                          store_with_incidents _ "users" _))
                Incident (VText "INC-1") _ _).
  - discriminate.
  - vm_compute. reflexivity.
Defined.

(** ** Every load that returns *)

Lemma subseq_length {A : Type} (l m : list A) :
  subseq l m -> (List.length l <= List.length m)%nat.
Proof. induction 1; simpl; lia. Qed.

Lemma cleaned_subseq (df : DataFrame) (pk : string) :
  subseq (cleaned df pk) (records df).
Proof.
  unfold cleaned. eapply subseq_trans; [apply keep_first_subseq|].
  apply subseq_filter.
Qed.

Lemma insert_nothing (t : table) (names : list string) :
  insert_many t names [] = Ok (grown t names []).
Proof. simpl. now rewrite grown_nothing. Qed.

(** The keyed path of the loader with the pandas steps carried out, for any
    table that has the key column. *)
Lemma load_steps (db : database) (t : table) (name pk : string) (df : DataFrame) :
  assoc name PK_COL = Some pk ->
  assoc name db = Some t ->
  has_col df pk = true ->
  has_column t pk = true ->
  load_csv_to_table db (Some df) name =
    let df_new := {| header := header df; records := new_records df pk t |} in
    let skipped := List.length (skipped_records df pk t) in
    if negb (empty df_new)
    then bind (to_sql db name df_new)
              (fun db' => Ok (db', (len df_new, skipped)))
    else Ok (db, (len df_new, skipped)).
Proof.
  intros P D Hc Hk. unfold load_csv_to_table. rewrite P.
  unfold dropna. rewrite Hc. cbn [bind].
  unfold drop_duplicates, has_col. cbn [header records].
  unfold has_col in Hc. rewrite Hc. cbn [bind].
  unfold _get_existing_keys, get_table. rewrite D. cbn [bind].
  unfold select_column. rewrite Hk. cbn [bind].
  unfold select. cbn [header records].
  rewrite filter_negb_negb. reflexivity.
Qed.

Lemma load_needs (db db' : database) (name pk : string) (df : DataFrame)
  (pair : nat * nat) :
  assoc name PK_COL = Some pk ->
  load_csv_to_table db (Some df) name = Ok (db', pair) ->
  exists t, assoc name db = Some t /\ has_col df pk = true /\
            has_column t pk = true.
Proof.
  intros P. unfold load_csv_to_table. rewrite P.
  unfold dropna. destruct (has_col df pk) eqn:Hc; [|discriminate]. cbn [bind].
  unfold drop_duplicates, has_col. cbn [header records].
  unfold has_col in Hc. rewrite Hc. cbn [bind].
  unfold _get_existing_keys, get_table.
  destruct (assoc name db) as [t|]; [|discriminate]. cbn [bind].
  unfold select_column. destruct (has_column t pk) eqn:Hk; [|discriminate].
  intros _. now exists t.
Qed.

(** What a load that returns has done: one successful append of a batch
    taken, in order, from the records of the frame. *)
Lemma load_returns (db db' : database) (df : DataFrame) (name : string)
  (inserted skipped : nat) :
  load_csv_to_table db (Some df) name = Ok (db', (inserted, skipped)) ->
  exists batch,
    insert_many (target_table db name df) (header df) batch
      = Ok (grown (target_table db name df) (header df) batch) /\
    db' = set_table db name (grown (target_table db name df) (header df) batch) /\
    subseq batch (records df) /\
    inserted = List.length batch /\
    (inserted + skipped <= len df)%nat /\
    (forall pk, assoc name PK_COL = Some pk ->
       exists t, assoc name db = Some t /\ has_col df pk = true /\
                 batch = new_records df pk t /\
                 skipped = List.length (skipped_records df pk t)).
Proof.
  intros H. destruct (assoc name PK_COL) as [pk|] eqn:P.
  - destruct (load_needs _ _ _ _ _ _ P H) as (t & D & Hc & Hk).
    rewrite (load_steps db t name pk df P D Hc Hk) in H. cbv zeta in H.
    unfold empty, len, target_table in *. cbn [header records] in H. rewrite D.
    assert (L : (List.length (new_records df pk t)
                 + List.length (skipped_records df pk t)
                 <= List.length (records df))%nat).
    { unfold new_records, skipped_records. rewrite filter_split_length.
      apply subseq_length, cleaned_subseq. }
    assert (Q : subseq (new_records df pk t) (records df)).
    { eapply subseq_trans; [apply subseq_filter | apply cleaned_subseq]. }
    destruct (new_records df pk t) as [|r rest] eqn:N; cbn [negb] in H.
    + injection H as <- <- <-. exists [].
      split; [apply insert_nothing|].
      split; [now rewrite grown_nothing, (set_table_same _ _ _ D)|].
      split; [exact Q|]. split; [reflexivity|]. split; [exact L|].
      intros pk' [= <-]. exists t. now rewrite N.
    + unfold to_sql in H. rewrite D in H. cbn [header records] in H.
      destruct (insert_many t (header df) (r :: rest)) as [t'|e] eqn:I;
        [|discriminate].
      cbn [bind] in H. injection H as <- <- <-. exists (r :: rest).
      pose proof (insert_many_appends _ _ _ _ I) as ->.
      split; [exact I|]. split; [reflexivity|].
      split; [exact Q|]. split; [reflexivity|]. split; [exact L|].
      intros pk' [= <-]. exists t. now rewrite N.
  - unfold load_csv_to_table in H. rewrite P in H. unfold to_sql in H.
    fold (target_table db name df) in H.
    destruct (insert_many _ (header df) (records df)) as [t'|e] eqn:I;
      [|discriminate].
    cbn [bind] in H. injection H as <- <- <-. exists (records df).
    pose proof (insert_many_appends _ _ _ _ I) as ->.
    split; [exact I|]. split; [reflexivity|].
    split; [|split; [reflexivity|split; [unfold len; lia|discriminate]]].
    clear. induction (records df); constructor; assumption.
Qed.

Lemma length_appended (cols : list column) (names : list string) (n : Z)
  (batch : list (list value)) :
  List.length (appended cols names n batch) = List.length batch.
Proof.
  revert n. induction batch as [|r batch IH]; intros n; simpl; [reflexivity|].
  now rewrite IH.
Qed.



Section LoadSound.

Variables (e : entity) (db : database) (t : table).
Hypothesis in_store : assoc (entity_table e) db = Some t.
Hypothesis is_sound : sound (entity_columns e) (entity_key e) t.

(** A load into a sound table, whatever the batch holds, leaves the table
    sound when it returns: no row without a key and no key twice ever
    reaches the store. *)
Theorem load_keeps_store_sound (csv : option DataFrame) (db' : database)
  (counts : nat * nat) :
  load_csv_to_table db csv (entity_table e) = Ok (db', counts) ->
  exists t', assoc (entity_table e) db' = Some t' /\
             sound (entity_columns e) (entity_key e) t'.
Proof.
  destruct csv as [df|]; [|intros [= <- _]; now exists t].
  destruct counts as [inserted skipped]. intros H.
  destruct (load_returns _ _ _ _ _ _ H) as (batch & I & -> & _).
  unfold target_table in *. rewrite in_store in *.
  eexists. split; [now apply assoc_set_table with (t := t)|].
  exact (insert_many_sound _ _ (entity_keyed e) _ _ _ _ is_sound I).
Qed.

End LoadSound.

Lemma load_keeps_store_sound_witness :
  exists t',
    assoc "cyber_incidents"
          (store_after store_with_incidents
             (load_csv_to_table store_with_incidents (Some frame_mixed)
                                "cyber_incidents")) = Some t' /\
    sound cyber_incidents_columns "incident_id" t'.
Proof.
  refine (load_keeps_store_sound Incident store_with_incidents
            (table_of store_with_incidents "cyber_incidents")
            eq_refl store_with_incidents_sound (Some frame_mixed) _ _ _).
  vm_compute. reflexivity.
Defined.

(** ** Loading again, and looking up what was loaded *)

Lemma stored_strs_grow (t : table) (names : list string) (pk : string)
  (batch : list (list value)) (s : string) :
  In s (stored_strs t pk) -> In s (stored_strs (grown t names batch) pk).
Proof.
  unfold stored_strs, key_cells, grown. cbn [rows].
  rewrite map_app, filter_app, map_app, in_app_iff. tauto.
Qed.

Section LoadAgain.

Variables (e : entity) (db : database) (t : table) (df : DataFrame).
Hypothesis table_in_db : assoc (entity_table e) db = Some t.
Hypothesis from_schema : columns t = entity_columns e.
Hypothesis well_formed : loadable t (entity_key e) df.

Local Abbreviation name := (entity_table e).
Local Abbreviation pk := (entity_key e).
Local Abbreviation t' := (grown t (header df) (new_records df pk t)).
Local Abbreviation db' := (set_table db name t').

Lemma schema_of_table : schema_of name = Some (columns t).
Proof. rewrite from_schema. apply entity_schema. Qed.

Lemma first_load :
  load_csv_to_table db (Some df) name
    = Ok (db', (List.length (new_records df pk t),
                List.length (skipped_records df pk t))).
Proof.
  destruct well_formed as (Hk & Hc & Hd).
  exact (load_keyed db t name pk df (entity_configured e) table_in_db
           schema_of_table Hk Hc Hd).
Qed.

(** After the load every cleaned record finds the string of its key in the
    store. *)
Lemma stored_after_load (r : list value) :
  In r (cleaned df pk) -> in_store df pk t' r = true.
Proof.
  intros Hr. destruct (in_store df pk t r) eqn:S.
  - unfold in_store in *. apply existsb_exists in S as (s & Hs & E).
    apply existsb_exists. exists s. split; [|exact E].
    now apply stored_strs_grow.
  - assert (Hnew : In r (new_records df pk t)).
    { apply filter_In. split; [exact Hr|]. now rewrite S. }
    unfold in_store. apply existsb_exists.
    exists (py_str (at_col df pk r)). split; [|apply String.eqb_refl].
    unfold stored_strs. rewrite <- (py_str_affinity (at_col df pk r)).
    apply in_map, filter_In. split.
    + unfold key_cells, grown. cbn [rows]. rewrite map_app.
      apply in_or_app. right.
      rewrite (key_cells_appended pk (header df) (columns t) (seq t) _
                 (table_keyed t name pk (entity_configured e) schema_of_table)).
      now apply in_map with
        (f := fun r0 => apply_affinity TEXT (given_key pk (header df) r0)).
    + apply (cleaned_records pk df r) in Hr as [_ Hn].
      now rewrite is_null_affinity, Hn.
Qed.

(** On any store that holds the table as the load left it, the same batch
    inserts nothing and changes nothing. *)
Lemma second_load (store : database) :
  assoc name store = Some t' ->
  load_csv_to_table store (Some df) name
    = Ok (store, (0%nat, List.length (cleaned df pk))).
Proof.
  intros Hin. destruct well_formed as (Hk & Hc & Hd).
  rewrite (load_keyed store t' name pk df (entity_configured e) Hin
             schema_of_table Hk Hc Hd).
  assert (Hnew : new_records df pk t' = []).
  { unfold new_records at 1. apply filter_none, forallb_forall. intros r Hr.
    now rewrite (stored_after_load r Hr). }
  assert (Hskip : skipped_records df pk t' = cleaned df pk).
  { unfold skipped_records. apply filter_all, forallb_forall.
    exact stored_after_load. }
  now rewrite Hnew, Hskip, grown_nothing, (set_table_same _ _ _ Hin).
Qed.


Hypothesis is_sound : sound (entity_columns e) (entity_key e) t.


End LoadAgain.

Lemma frame_mixed_loadable :
  loadable (table_of store_with_incidents "cyber_incidents") "incident_id"
           frame_mixed.
Proof.
  split; [reflexivity|]. split; [reflexivity|].
  intros r1 r2 H1 H2. simpl in H1, H2.
  repeat (destruct H1 as [<-|H1]); try contradiction;
    repeat (destruct H2 as [<-|H2]); try contradiction;
    vm_compute; intros N1 N2 E; try reflexivity; discriminate.
Qed.



(** ** Loading all the files *)

Lemma load_all_steps (db : database) (files : string -> option DataFrame) :
  load_all_csv_data db files =
    bind (load_csv_to_table db (files "cyber_incidents.csv") "cyber_incidents")
      (fun '(db1, (i1, s1)) =>
         bind (load_csv_to_table db1 (files "datasets_metadata.csv")
                                 "datasets_metadata")
           (fun '(db2, (i2, s2)) =>
              bind (load_csv_to_table db2 (files "it_tickets.csv") "it_tickets")
                (fun '(db3, (i3, s3)) =>
                   Ok (db3, (0 + i1 + i2 + i3, 0 + s1 + s2 + s3)%nat)))).
Proof.
  unfold load_all_csv_data. cbn [fold_left bind].
  destruct (load_csv_to_table db _ _) as [[db1 [i1 s1]]|]; [|reflexivity].
  cbn [bind].
  destruct (load_csv_to_table db1 _ _) as [[db2 [i2 s2]]|]; [|reflexivity].
  cbn [bind].
  destruct (load_csv_to_table db2 _ _) as [[db3 [i3 s3]]|]; reflexivity.
Qed.

(** One load of a file that may be missing: what it adds and what it leaves
    alone. *)
Lemma load_any (db db' : database) (csv : option DataFrame) (name : string)
  (inserted skipped : nat) :
  load_csv_to_table db csv name = Ok (db', (inserted, skipped)) ->
  exists added : list row,
    List.length added = inserted /\
    (forall other, other <> name -> assoc other db' = assoc other db) /\
    (forall t, assoc name db = Some t ->
       exists t', assoc name db' = Some t' /\
                  rows t' = (rows t ++ added)%list /\ columns t' = columns t).
Proof.
  destruct csv as [df|].
  - intros H. destruct (load_returns _ _ _ _ _ _ H) as (batch & _ & -> & _ & -> & _).
    exists (appended (columns (target_table db name df)) (header df)
                     (seq (target_table db name df)) batch).
    split; [apply length_appended|]. split.
    + intros other Hne. now apply assoc_set_table_other.
    + intros t D. eexists. split; [now apply assoc_set_table with (t := t)|].
      unfold target_table. rewrite D. split; reflexivity.
  - intros [= <- <- _]. exists []. split; [reflexivity|]. split; [reflexivity|].
    intros t D. exists t. rewrite app_nil_r. auto.
Qed.



Section LoadEntity.

Variables (e : entity) (t : table) (csv : option DataFrame).
Hypothesis from_schema : columns t = entity_columns e.
Hypothesis well_formed :
  forall df, csv = Some df -> loadable t (entity_key e) df.

Lemma load_entity_first (db : database) :
  assoc (entity_table e) db = Some t ->
  load_csv_to_table db csv (entity_table e)
    = Ok (set_table db (entity_table e) (loaded_table t (entity_key e) csv),
          load_counts t (entity_key e) csv).
Proof.
  intros D. destruct csv as [df|]; cbn [loaded_table load_counts].
  - exact (first_load e db t df D from_schema (well_formed df eq_refl)).
  - cbn [load_csv_to_table]. now rewrite (set_table_same _ _ _ D).
Qed.

Lemma load_entity_second (store : database) :
  assoc (entity_table e) store = Some (loaded_table t (entity_key e) csv) ->
  load_csv_to_table store csv (entity_table e)
    = Ok (store, (0, fst (load_counts t (entity_key e) csv)
                     + snd (load_counts t (entity_key e) csv))%nat).
Proof.
  intros D. destruct csv as [df|]; cbn [loaded_table load_counts fst snd] in *.
  - rewrite (second_load e t df from_schema (well_formed df eq_refl) store D).
    unfold new_records, skipped_records. now rewrite filter_split_length.
  - reflexivity.
Qed.

End LoadEntity.

Section LoadAllAgain.

Variables (db : database) (files : string -> option DataFrame).
Variable tab : entity -> table.
Hypothesis tables :
  forall e, assoc (entity_table e) db = Some (tab e) /\
            columns (tab e) = entity_columns e.
Hypothesis batches :
  forall e df, files (entity_file e) = Some df ->
               loadable (tab e) (entity_key e) df.


End LoadAllAgain.


(** ** The invariant at the start and under delete *)

(** A table of an entity that [create_tables] has to make is sound from
    the start. *)
Theorem fresh_tables_are_sound (db : database) (e : entity) :
  assoc (entity_table e) db = None ->
  exists t, assoc (entity_table e) (create_tables db) = Some t /\
            rows t = [] /\
            sound (entity_columns e) (entity_key e) t.
Proof.
  intros H. eexists. split.
  - apply create_tables_makes; [apply entity_schema | exact H].
  - split; [reflexivity | apply empty_table_sound].
Qed.

Lemma fresh_tables_are_sound_witness :
  exists t, assoc "it_tickets" (create_tables []) = Some t /\
            sound it_tickets_columns "ticket_id" t.
Proof.
  destruct (fresh_tables_are_sound [] Ticket eq_refl) as (t & H & _ & S).
  now exists t.
Defined.

Section DeleteSound.

Variables (e : entity) (db : database) (t : table) (key : value).
Hypothesis in_store : assoc (entity_table e) db = Some t.
Hypothesis is_sound : sound (entity_columns e) (entity_key e) t.


End DeleteSound.

